(** * Status aggregate, merge policy and status update of the operator

    A shallow embedding of
    - [pkg/apis/clickhouse.altinity.com/v1] : the [Status] struct with its
      synchronized getters and setters and [CopyFrom];
    - the keeper [kube.CR] status updater : [Get], [StatusUpdate] and
      [doUpdateCRStatus].

    Go values are modelled as follows.
    - A pointer that may be nil is an [option]; [None] is nil.
    - A slice is an [option (list A)]: [None] is the nil slice and
      [Some nil] an empty slice that is not nil (the code tells them apart
      in [SyncHostTablesCreated]).
    - [int] is a [Z] in the 64-bit signed range; [++] wraps around.
    - An [error] is its message; a nil error is [None].
    - The mutex of [Status] is not modelled: every method runs alone, the
      model is sequential. Slices are values, no two of them share a
      backing array. *)

From Stdlib Require Import List String ZArith Lia.
From Stdlib Require Import Sorted Permutation OrderedTypeEx.
From stdpp Require gmap strings.
From coqutil Require Import Datatypes.RecordSetters.
Import ListNotations.
Import RecordSetters.TriangleBracketNotations.

Local Open Scope string_scope.
Local Open Scope list_scope.

(** ** Go values *)

Definition slice (A : Type) : Type := option (list A).

(** The elements of a slice; the nil slice has none. *)
Definition elems {A} (s : slice A) : list A :=
  match s with
  | None => []
  | Some l => l
  end.

(** [len(s)] *)
Definition len {A} (s : slice A) : nat := List.length (elems s).

(** [append(s, x...)]: appending nothing to the nil slice leaves it nil. *)
Definition append {A} (s : slice A) (x : list A) : slice A :=
  match s, x with
  | None, [] => None
  | _, _ => Some (elems s ++ x)
  end.

(** [s[:n]], used by the code only where [n <= len(s)]. *)
Definition upto {A} (n : nat) (s : slice A) : slice A :=
  Some (firstn n (elems s)).

Definition int : Type := Z.

Definition wrap64 (z : Z) : int :=
  ((z + 2 ^ 63) mod 2 ^ 64 - 2 ^ 63)%Z.

(** [x++] on an [int] *)
Definition incr (x : int) : int := wrap64 (x + 1).

Definition error : Type := string.

(** ** Package [sort] of the Go library

    [sort.Sort(sort.Reverse(sort.StringSlice(x)))] orders [x] in place with
    [Less(i, j) = x[j] < x[i]], that is in descending byte-wise order.
    Strings that compare equal are the same string, so the outcome does not
    depend on the sorting algorithm; an insertion sort stands for it. *)
Module sort.

Definition Less (a b : string) : bool := String.ltb a b.

Definition ReverseLess (a b : string) : bool := Less b a.

Fixpoint insert (a : string) (l : list string) : list string :=
  match l with
  | [] => [a]
  | b :: l' => if ReverseLess b a then b :: insert a l' else a :: l
  end.

Fixpoint sorted (l : list string) : list string :=
  match l with
  | [] => []
  | a :: l' => insert a (sorted l')
  end.

Definition SortReverseStringSlice (x : slice string) : slice string :=
  option_map sorted x.

End sort.

(** ** Package [util]

    The string-array helpers of [pkg/util] are used by [Status]; their
    source is not part of the files verified here. *)
Module util.

(** Modelled from the spec: [util.InArray], the membership test behind the
    table-created set being "deduplicated". *)
Definition InArray (needle : string) (haystack : slice string) : bool :=
  existsb (String.eqb needle) (elems haystack).

(** Modelled from the spec: [util.MergeStringArrays]. The histories are
    "unioned (duplicates collapsed)": every string of either array occurs
    once in the result. *)
Definition MergeStringArrays (dst src : slice string) : slice string :=
  Some (nodup string_dec (elems dst ++ elems src)).

(** Modelled from the spec: [util.IntersectStringArrays], "the intersection
    of its current contents with the live FQDN list": the entries of [a]
    that occur in [b]. *)
Definition IntersectStringArrays (a b : slice string) : slice string :=
  Some (filter (fun x => InArray x b) (elems a)).

End util.

(** ** Package [types]: the option structs *)
Module types.

(** The switches of [CopyFrom], as the code reads them. *)
Record CopyStatusOptions := {
  InheritableFields : bool;
  Actions : bool;
  Errors : bool;
  MainFields : bool;
  Normalized : bool;
  WholeStatus : bool;
}.

Record UpdateStatusOptions := {
  CopyStatusOptions_ : CopyStatusOptions;
  TolerateAbsence : bool;
}.

End types.

(** ** The [Status] struct *)

Definition maxActions : nat := 10.
Definition maxErrors : nat := 10.
Definition maxTaskIDs : nat := 10.

Definition StatusInProgress : string := "InProgress".
Definition StatusCompleted : string := "Completed".
Definition StatusAborted : string := "Aborted".
Definition StatusTerminating : string := "Terminating".

Section StatusModel.

(** [ClickHouseInstallation] and [TemplateRef] are only held by reference:
    [CHI] is what a [*ClickHouseInstallation] that is not nil points to and
    [TRef] is a [*TemplateRef]. *)
Context {CHI TRef : Type}.

Record Status := {
  CHOpVersion : string;
  CHOpCommit : string;
  CHOpDate : string;
  CHOpIP : string;
  ClustersCount : int;
  ShardsCount : int;
  ReplicasCount : int;
  HostsCount : int;
  Status_ : string;
  TaskID : string;
  TaskIDsStarted : slice string;
  TaskIDsCompleted : slice string;
  Action : string;
  Actions : slice string;
  Error : string;
  Errors : slice string;
  HostsUpdatedCount : int;
  HostsAddedCount : int;
  HostsUnchangedCount : int;
  HostsFailedCount : int;
  HostsCompletedCount : int;
  HostsDeletedCount : int;
  HostsDeleteCount : int;
  Pods : slice string;
  PodIPs : slice string;
  FQDNs : slice string;
  Endpoint : string;
  NormalizedCR : option CHI;
  NormalizedCRCompleted : option CHI;
  HostsWithTablesCreated : slice string;
  UsedTemplates : slice TRef;
}.

End StatusModel.

Arguments Status : clear implicits.

(** [FillStatusParams], the argument of [Fill]. *)
Module FillStatusParams.
Record t {CHI : Type} := {
  CHOpIP : string;
  ClustersCount : int;
  ShardsCount : int;
  HostsCount : int;
  TaskID : string;
  HostsUpdatedCount : int;
  HostsAddedCount : int;
  HostsUnchangedCount : int;
  HostsCompletedCount : int;
  HostsDeleteCount : int;
  HostsDeletedCount : int;
  Pods : slice string;
  FQDNs : slice string;
  Endpoint : string;
  NormalizedCR : option CHI;
}.
Arguments t : clear implicits.
End FillStatusParams.

(** ** The methods of [Status] *)

Section StatusMethods.

Context {CHI TRef : Type}.

(** The build constants of package [version]. *)
Variables version_Version version_GitSHA version_BuiltAt : string.

Local Abbreviation Status := (Status CHI TRef).

(** *** Helpers

    A receiver is a [*Status], nil or not. The closure handed to a helper
    is only ever called with the receiver itself once it is known not to be
    nil; it is modelled as a function on the struct it points to. *)

Definition doWithWriteLock (s : option Status) (f : Status -> Status)
  : option Status :=
  match s with
  | None => None
  | Some st => Some (f st)
  end.

(** The closure given to [doWithReadLock] acts on what it captures, here a
    value of type [T]; on a nil [s] it is not called. *)
Definition doWithReadLock {T} (s : option Status) (f : Status -> T -> T)
  : T -> T :=
  match s with
  | None => fun t => t
  | Some st => f st
  end.

Definition getIntWithReadLock (s : option Status) (f : Status -> int) : int :=
  let zeroVal : int := 0%Z in
  match s with
  | None => zeroVal
  | Some st => f st
  end.

Definition getStringWithReadLock (s : option Status) (f : Status -> string)
  : string :=
  let zeroVal : string := "" in
  match s with
  | None => zeroVal
  | Some st => f st
  end.

Definition getInstallationWithReadLock (s : option Status)
  (f : Status -> option CHI) : option CHI :=
  let zeroVal : option CHI := None in
  match s with
  | None => zeroVal
  | Some st => f st
  end.

Definition getStringArrWithReadLock (s : option Status)
  (f : Status -> slice string) : slice string :=
  let emptyArr : slice string := Some [] in
  match s with
  | None => emptyArr
  | Some st => f st
  end.

(** The zero value of [Status]. *)
Definition zeroStatus : Status := {|
  CHOpVersion := ""; CHOpCommit := ""; CHOpDate := ""; CHOpIP := "";
  ClustersCount := 0%Z; ShardsCount := 0%Z; ReplicasCount := 0%Z;
  HostsCount := 0%Z; Status_ := ""; TaskID := "";
  TaskIDsStarted := None; TaskIDsCompleted := None;
  Action := ""; Actions := None; Error := ""; Errors := None;
  HostsUpdatedCount := 0%Z; HostsAddedCount := 0%Z;
  HostsUnchangedCount := 0%Z; HostsFailedCount := 0%Z;
  HostsCompletedCount := 0%Z; HostsDeletedCount := 0%Z;
  HostsDeleteCount := 0%Z;
  Pods := None; PodIPs := None; FQDNs := None; Endpoint := "";
  NormalizedCR := None; NormalizedCRCompleted := None;
  HostsWithTablesCreated := None; UsedTemplates := None;
|}.

(** [append([]string{x}, s...)] followed by the cut to [max] entries that
    every push of the code performs. *)
Definition pushCapped (max : nat) (x : string) (s : slice string)
  : slice string :=
  let r := append (Some [x]) (elems s) in
  if (max <? len r)%nat then upto max r else r.

Definition trimActionsNoSync (s : Status) : Status :=
  if (maxActions <? len (Actions s))%nat
  then s <| Actions := upto maxActions (Actions s) |>
  else s.

Definition mergeActionsNoSync (s from : Status) : Status :=
  let s := s <| Actions := util.MergeStringArrays (Actions s) (Actions from) |> in
  let s := s <| Actions := sort.SortReverseStringSlice (Actions s) |> in
  trimActionsNoSync s.

Definition pushTaskIDStartedNoSync (s : Status) : Status :=
  s <| TaskIDsStarted := pushCapped maxTaskIDs (TaskID s) (TaskIDsStarted s) |>.

Definition pushTaskIDCompletedNoSync (s : Status) : Status :=
  s <| TaskIDsCompleted := pushCapped maxTaskIDs (TaskID s) (TaskIDsCompleted s) |>.

(** *** Mutators *)

Definition Fill (s : option Status) (params : FillStatusParams.t CHI)
  : option Status :=
  doWithWriteLock s (fun s =>
    s <| CHOpVersion := version_Version |>
      <| CHOpCommit := version_GitSHA |>
      <| CHOpDate := version_BuiltAt |>
      <| CHOpIP := FillStatusParams.CHOpIP params |>
      <| ClustersCount := FillStatusParams.ClustersCount params |>
      <| ShardsCount := FillStatusParams.ShardsCount params |>
      <| HostsCount := FillStatusParams.HostsCount params |>
      <| TaskID := FillStatusParams.TaskID params |>
      <| HostsUpdatedCount := FillStatusParams.HostsUpdatedCount params |>
      <| HostsAddedCount := FillStatusParams.HostsAddedCount params |>
      <| HostsUnchangedCount := FillStatusParams.HostsUnchangedCount params |>
      <| HostsCompletedCount := FillStatusParams.HostsCompletedCount params |>
      <| HostsDeleteCount := FillStatusParams.HostsDeleteCount params |>
      <| HostsDeletedCount := FillStatusParams.HostsDeletedCount params |>
      <| Pods := FillStatusParams.Pods params |>
      <| FQDNs := FillStatusParams.FQDNs params |>
      <| Endpoint := FillStatusParams.Endpoint params |>
      <| NormalizedCR := FillStatusParams.NormalizedCR params |>).

Definition SetError (s : option Status) (err : string) : option Status :=
  doWithWriteLock s (fun s => s <| Error := err |>).

Definition SetAndPushError (s : option Status) (err : string)
  : option Status :=
  doWithWriteLock s (fun s =>
    let s := s <| Error := err |> in
    s <| Errors := pushCapped maxErrors err (Errors s) |>).

Definition PushHostTablesCreated (s : option Status) (host : string)
  : option Status :=
  doWithWriteLock s (fun s =>
    if util.InArray host (HostsWithTablesCreated s) then s
    else s <| HostsWithTablesCreated :=
                append (HostsWithTablesCreated s) [host] |>).

Definition SyncHostTablesCreated (s : option Status) : option Status :=
  doWithWriteLock s (fun s =>
    match FQDNs s with
    | None => s
    | Some _ =>
        s <| HostsWithTablesCreated :=
               util.IntersectStringArrays (HostsWithTablesCreated s) (FQDNs s) |>
    end).

Definition PushUsedTemplate (s : option Status) (templateRef : TRef)
  : option Status :=
  doWithWriteLock s (fun s =>
    s <| UsedTemplates := append (UsedTemplates s) [templateRef] |>).

Definition SetAction (s : option Status) (action : string) : option Status :=
  doWithWriteLock s (fun s => s <| Action := action |>).

Definition PushAction (s : option Status) (action : string) : option Status :=
  doWithWriteLock s (fun s =>
    let s := s <| Actions := append (Some [action]) (elems (Actions s)) |> in
    trimActionsNoSync s).

(** A sequence of [PushAction] calls, first call first. *)
Definition PushActions (s : option Status) (actions : list string)
  : option Status :=
  fold_left PushAction actions s.

Definition PushError (s : option Status) (error : string) : option Status :=
  doWithWriteLock s (fun s =>
    s <| Errors := pushCapped maxErrors error (Errors s) |>).

Definition SetPodIPs (s : option Status) (podIPs : slice string)
  : option Status :=
  doWithWriteLock s (fun s => s <| PodIPs := podIPs |>).

Definition HostDeleted (s : option Status) : option Status :=
  doWithWriteLock s (fun s =>
    s <| HostsDeletedCount := incr (HostsDeletedCount s) |>).

Definition HostUpdated (s : option Status) : option Status :=
  doWithWriteLock s (fun s =>
    s <| HostsUpdatedCount := incr (HostsUpdatedCount s) |>).

Definition HostAdded (s : option Status) : option Status :=
  doWithWriteLock s (fun s =>
    s <| HostsAddedCount := incr (HostsAddedCount s) |>).

Definition HostUnchanged (s : option Status) : option Status :=
  doWithWriteLock s (fun s =>
    s <| HostsUnchangedCount := incr (HostsUnchangedCount s) |>).

Definition HostFailed (s : option Status) : option Status :=
  doWithWriteLock s (fun s =>
    s <| HostsFailedCount := incr (HostsFailedCount s) |>).

Definition HostCompleted (s : option Status) : option Status :=
  doWithWriteLock s (fun s =>
    s <| HostsCompletedCount := incr (HostsCompletedCount s) |>).

(** The closures of the next four methods start with [if s == nil return];
    the helper has excluded that case before it calls them. *)
Definition ReconcileStart (s : option Status) (deleteHostsCount : int)
  : option Status :=
  doWithWriteLock s (fun s =>
    let s := s <| Status_ := StatusInProgress |>
               <| HostsUpdatedCount := 0%Z |>
               <| HostsAddedCount := 0%Z |>
               <| HostsUnchangedCount := 0%Z |>
               <| HostsCompletedCount := 0%Z |>
               <| HostsDeletedCount := 0%Z |>
               <| HostsDeleteCount := deleteHostsCount |> in
    pushTaskIDStartedNoSync s).

Definition ReconcileComplete (s : option Status) : option Status :=
  doWithWriteLock s (fun s =>
    let s := s <| Status_ := StatusCompleted |>
               <| Action := "" |> in
    pushTaskIDCompletedNoSync s).

Definition ReconcileAbort (s : option Status) : option Status :=
  doWithWriteLock s (fun s =>
    let s := s <| Status_ := StatusAborted |>
               <| Action := "" |> in
    pushTaskIDCompletedNoSync s).

Definition DeleteStart (s : option Status) : option Status :=
  doWithWriteLock s (fun s =>
    let s := s <| Status_ := StatusTerminating |>
               <| HostsUpdatedCount := 0%Z |>
               <| HostsAddedCount := 0%Z |>
               <| HostsUnchangedCount := 0%Z |>
               <| HostsCompletedCount := 0%Z |>
               <| HostsDeletedCount := 0%Z |>
               <| HostsDeleteCount := 0%Z |> in
    pushTaskIDStartedNoSync s).

Definition ClearNormalizedCR (s : option Status) : option Status :=
  doWithWriteLock s (fun s => s <| NormalizedCR := None |>).

Definition SetNormalizedCompletedFromCurrentNormalized (s : option Status)
  : option Status :=
  doWithWriteLock s (fun s => s <| NormalizedCRCompleted := NormalizedCR s |>).

(** [CopyFrom]: the write lock of the receiver, then the read lock of [f];
    the body runs when neither is nil. The steps follow the order of the
    source. *)
Definition copyInheritableFields (from s : Status) : Status :=
  s <| TaskIDsStarted := TaskIDsStarted from |>
    <| TaskIDsCompleted := TaskIDsCompleted from |>
    <| Actions := Actions from |>
    <| Errors := Errors from |>
    <| HostsWithTablesCreated := HostsWithTablesCreated from |>.

Definition copyActions (from s : Status) : Status :=
  let s := s <| Action := Action from |> in
  let s := mergeActionsNoSync s from in
  let s := s <| HostsWithTablesCreated := None |> in
  let s :=
    if (0 <? len (HostsWithTablesCreated from))%nat
    then s <| HostsWithTablesCreated :=
                append (HostsWithTablesCreated s)
                       (elems (HostsWithTablesCreated from)) |>
    else s in
  let s := s <| UsedTemplates := None |> in
  if (0 <? len (UsedTemplates from))%nat
  then s <| UsedTemplates :=
              append (UsedTemplates s) (elems (UsedTemplates from)) |>
  else s.

Definition copyErrors (from s : Status) : Status :=
  let s := s <| Error := Error from |> in
  let s := s <| Errors := util.MergeStringArrays (Errors s) (Errors from) |> in
  s <| Errors := sort.SortReverseStringSlice (Errors s) |>.

Definition copyMainFields (from s : Status) : Status :=
  let s := s <| CHOpVersion := CHOpVersion from |>
             <| CHOpCommit := CHOpCommit from |>
             <| CHOpDate := CHOpDate from |>
             <| CHOpIP := CHOpIP from |>
             <| ClustersCount := ClustersCount from |>
             <| ShardsCount := ShardsCount from |>
             <| ReplicasCount := ReplicasCount from |>
             <| HostsCount := HostsCount from |>
             <| Status_ := Status_ from |>
             <| TaskID := TaskID from |>
             <| TaskIDsStarted := TaskIDsStarted from |>
             <| TaskIDsCompleted := TaskIDsCompleted from |>
             <| Action := Action from |> in
  let s := mergeActionsNoSync s from in
  s <| Error := Error from |>
    <| Errors := Errors from |>
    <| HostsUpdatedCount := HostsUpdatedCount from |>
    <| HostsAddedCount := HostsAddedCount from |>
    <| HostsUnchangedCount := HostsUnchangedCount from |>
    <| HostsCompletedCount := HostsCompletedCount from |>
    <| HostsDeletedCount := HostsDeletedCount from |>
    <| HostsDeleteCount := HostsDeleteCount from |>
    <| Pods := Pods from |>
    <| PodIPs := PodIPs from |>
    <| FQDNs := FQDNs from |>
    <| Endpoint := Endpoint from |>
    <| NormalizedCR := NormalizedCR from |>.

Definition copyNormalized (from s : Status) : Status :=
  s <| NormalizedCR := NormalizedCR from |>.

(** The block of [WholeStatus] repeats the assignments of [MainFields],
    line by line, and adds the completed snapshot. *)
Definition copyWholeStatus (from s : Status) : Status :=
  let s := copyMainFields from s in
  s <| NormalizedCRCompleted := NormalizedCRCompleted from |>.

Definition when (b : bool) (f : Status -> Status) (s : Status) : Status :=
  if b then f s else s.

Definition CopyFrom (s f : option Status) (opts : types.CopyStatusOptions)
  : option Status :=
  doWithWriteLock s (fun s =>
    doWithReadLock f (fun from s =>
      let s := when (types.InheritableFields opts) (copyInheritableFields from) s in
      let s := when (types.Actions opts) (copyActions from) s in
      let s := when (types.Errors opts) (copyErrors from) s in
      let s := when (types.MainFields opts) (copyMainFields from) s in
      let s := when (types.Normalized opts) (copyNormalized from) s in
      when (types.WholeStatus opts) (copyWholeStatus from) s) s).

(** *** Accessors *)

Definition GetUsedTemplatesCount (s : option Status) : int :=
  getIntWithReadLock s (fun s => Z.of_nat (len (UsedTemplates s))).

Definition GetCHOpVersion (s : option Status) : string :=
  getStringWithReadLock s CHOpVersion.

Definition GetCHOpCommit (s : option Status) : string :=
  getStringWithReadLock s CHOpCommit.

Definition GetCHOpDate (s : option Status) : string :=
  getStringWithReadLock s CHOpDate.

Definition GetCHOpIP (s : option Status) : string :=
  getStringWithReadLock s CHOpIP.

Definition GetClustersCount (s : option Status) : int :=
  getIntWithReadLock s ClustersCount.

Definition GetShardsCount (s : option Status) : int :=
  getIntWithReadLock s ShardsCount.

Definition GetReplicasCount (s : option Status) : int :=
  getIntWithReadLock s ReplicasCount.

Definition GetHostsCount (s : option Status) : int :=
  getIntWithReadLock s HostsCount.

Definition GetStatus (s : option Status) : string :=
  getStringWithReadLock s Status_.

Definition GetTaskID (s : option Status) : string :=
  getStringWithReadLock s TaskID.

Definition GetTaskIDsStarted (s : option Status) : slice string :=
  getStringArrWithReadLock s TaskIDsStarted.

Definition GetTaskIDsCompleted (s : option Status) : slice string :=
  getStringArrWithReadLock s TaskIDsCompleted.

Definition GetAction (s : option Status) : string :=
  getStringWithReadLock s Action.

Definition GetActions (s : option Status) : slice string :=
  getStringArrWithReadLock s Actions.

Definition GetError (s : option Status) : string :=
  getStringWithReadLock s Error.

Definition GetErrors (s : option Status) : slice string :=
  getStringArrWithReadLock s Errors.

Definition GetHostsUpdatedCount (s : option Status) : int :=
  getIntWithReadLock s HostsUpdatedCount.

Definition GetHostsAddedCount (s : option Status) : int :=
  getIntWithReadLock s HostsAddedCount.

Definition GetHostsUnchangedCount (s : option Status) : int :=
  getIntWithReadLock s HostsUnchangedCount.

Definition GetHostsFailedCount (s : option Status) : int :=
  getIntWithReadLock s HostsFailedCount.

Definition GetHostsCompletedCount (s : option Status) : int :=
  getIntWithReadLock s HostsCompletedCount.

Definition GetHostsDeletedCount (s : option Status) : int :=
  getIntWithReadLock s HostsDeletedCount.

Definition GetHostsDeleteCount (s : option Status) : int :=
  getIntWithReadLock s HostsDeleteCount.

Definition GetPods (s : option Status) : slice string :=
  getStringArrWithReadLock s Pods.

Definition GetPodIPs (s : option Status) : slice string :=
  getStringArrWithReadLock s PodIPs.

Definition GetFQDNs (s : option Status) : slice string :=
  getStringArrWithReadLock s FQDNs.

Definition GetEndpoint (s : option Status) : string :=
  getStringWithReadLock s Endpoint.

Definition GetNormalizedCR (s : option Status) : option CHI :=
  getInstallationWithReadLock s NormalizedCR.

Definition GetNormalizedCRCompleted (s : option Status) : option CHI :=
  getInstallationWithReadLock s NormalizedCRCompleted.

Definition GetHostsWithTablesCreated (s : option Status) : slice string :=
  getStringArrWithReadLock s HostsWithTablesCreated.

(** [x != nil] on a pointer *)
Definition notNil {A} (p : option A) : bool :=
  match p with
  | None => false
  | Some _ => true
  end.

Definition HasNormalizedCRCompleted (s : option Status) : bool :=
  notNil (GetNormalizedCRCompleted s).

Definition HasNormalizedCR (s : option Status) : bool :=
  notNil (GetNormalizedCR s).

End StatusMethods.

(** ** Package [kube]: the status updater of the keeper resource *)
Module kube.

Section Updater.

Context {CHI TRef : Type}.

(** [apiChk.ClickHouseKeeperInstallation], reduced to what the updater
    reads and writes: the identity, the version token of the store and the
    status pointer. The status of the keeper resource is merged with the
    [CopyFrom] of [Status] above. *)
Record ClickHouseKeeperInstallation := {
  Namespace : string;
  Name : string;
  ResourceVersion : string;
  StatusPtr : option (Status CHI TRef);
}.

Local Abbreviation CHK := ClickHouseKeeperInstallation.

(** A value of the interface [api.ICustomResource]: the nil interface, or
    a [*ClickHouseKeeperInstallation] (itself nil or not). *)
Inductive ICustomResource :=
| nilInterface
| ofCHK (p : option CHK).

(** What the run leaves behind, in the order it happened: the calls to the
    store, the sleeps and the log lines. *)
Inductive event :=
| EvGet (namespace name : string)
| EvUpdate (obj : CHK)
| EvSleep
| EvInfo (msg : string)
| EvWarning (msg : string) (err : error)
| EvError (msg : string) (err : error).

(** The collaborators of the updater, over a state [World] of everything
    outside the process: the context of the caller, the store behind
    [client.Client] and the clock. *)
Class Client (World : Type) := {
  (** [util.IsContextDone(ctx)] *)
  IsContextDone : World -> bool;
  (** [kubeClient.Get(ctx, key, cm)]: the object left in [cm] and the
      error *)
  kubeClientGet : string -> string -> World -> CHK * option error * World;
  (** [kubeClient.Status().Update(ctx, cur)] *)
  kubeClientStatusUpdate : CHK -> World -> option error * World;
  (** [time.Sleep(1 * time.Second)] *)
  timeSleep : World -> World;
}.

Context {World : Type} {client : Client World}.

Record state := {
  world : World;
  trace : list event;
}.

(** A call either returns or panics. *)
Inductive result (A : Type) :=
| Done (a : A)
| Panic (msg : string).

Arguments Done {A} a.
Arguments Panic {A} msg.

Definition M (A : Type) : Type := state -> result A * state.

Definition ret {A} (a : A) : M A := fun st => (Done a, st).

Definition bind {A B} (c : M A) (k : A -> M B) : M B :=
  fun st =>
    match c st with
    | (Done a, st') => k a st'
    | (Panic msg, st') => (Panic msg, st')
    end.

Definition panic {A} (msg : string) : M A := fun st => (Panic msg, st).

Definition emit (e : event) : M unit :=
  fun st => (Done tt, st <| trace := trace st ++ [e] |>).

Definition isContextDone : M bool :=
  fun st => (Done (IsContextDone (world st)), st).

Definition clientGet (namespace name : string) : M (CHK * option error) :=
  fun st =>
    let '(cm, err, w) := kubeClientGet namespace name (world st) in
    (Done (cm, err),
     st <| world := w |> <| trace := trace st ++ [EvGet namespace name] |>).

Definition clientStatusUpdate (cur : CHK) : M (option error) :=
  fun st =>
    let '(err, w) := kubeClientStatusUpdate cur (world st) in
    (Done err, st <| world := w |> <| trace := trace st ++ [EvUpdate cur] |>).

Definition sleep : M unit :=
  fun st =>
    (Done tt,
     st <| world := timeSleep (world st) |> <| trace := trace st ++ [EvSleep] |>).

Local Notation "x <- c ;; k" := (bind c (fun x => k))
  (at level 61, c at next level, right associativity).
Local Notation "' p <- c ;; k" := (bind c (fun x => let p := x in k))
  (at level 61, p pattern, c at next level, right associativity).

(** [util.NamespaceName(chk)] *)
Definition NamespaceName (chk : CHK) : string * string :=
  (Namespace chk, Name chk).

(** Modelled from the spec: [EnsureStatus] of the keeper resource is not
    among the sources. The status of the fetched object is the destination
    of the merge (section 4.3 c); an object without one gets an empty
    status first. *)
Definition EnsureStatus (cur : CHK) : CHK :=
  match StatusPtr cur with
  | None => cur <| StatusPtr := Some zeroStatus |>
  | Some _ => cur
  end.

(** The type assertion of [x] to a pointer to the keeper installation, in
    the form without the second result: it panics unless [x] holds a pointer
    of that type, so it panics on the nil interface. *)
Definition assertCHK (x : ICustomResource) : M (option CHK) :=
  match x with
  | nilInterface => panic "interface conversion: interface is nil"
  | ofCHK p => ret p
  end.

Definition Get (namespace name : string)
  : M (ICustomResource * option error) :=
  '(cm, err) <- clientGet namespace name ;;
  match err with
  | None => ret (ofCHK (Some cm), None)
  | Some e => ret (nilInterface, Some e)
  end.

(** [doUpdateCRStatus]: the error it returns and the caller's object, whose
    version token the last step may set. The caller's [cr] holds a keeper
    installation that is not nil, [chk]; the assertion on [cr] succeeds. *)
Definition doUpdateCRStatus (chk : CHK) (opts : types.UpdateStatusOptions)
  : M (option error * CHK) :=
  done <- isContextDone ;;
  if done then
    _ <- emit (EvInfo "task is done") ;;
    ret (None, chk)
  else
    let '(namespace, name) := NamespaceName chk in
    _ <- emit (EvInfo "Update CHK status") ;;
    '(_cur, err) <- Get namespace name ;;
    cur <- assertCHK _cur ;;
    match err with
    | Some e =>
        if types.TolerateAbsence opts then ret (None, chk)
        else
          _ <- emit (EvError "%q" e) ;;
          ret (Some e, chk)
    | None =>
        match cur with
        | None =>
            if types.TolerateAbsence opts then ret (None, chk)
            else
              let e := ("ERROR GetCR (" ++ namespace ++ "/" ++ name
                        ++ "): NULL returned")%string in
              _ <- emit (EvError "NULL returned" e) ;;
              ret (Some e, chk)
        | Some cur =>
            let cur := EnsureStatus cur in
            let cur :=
              cur <| StatusPtr :=
                       CopyFrom (StatusPtr cur) (StatusPtr chk)
                                (types.CopyStatusOptions_ opts) |> in
            err <- clientStatusUpdate cur ;;
            match err with
            | Some e =>
                _ <- emit (EvInfo "Got error upon update, may retry") ;;
                ret (Some e, chk)
            | None =>
                '(_cur, err) <- Get namespace name ;;
                cur <- assertCHK _cur ;;
                match cur with
                | None => panic "nil pointer dereference"
                | Some cur =>
                    if String.eqb (ResourceVersion chk) (ResourceVersion cur)
                    then ret (None, chk)
                    else
                      _ <- emit (EvInfo "ResourceVersion change") ;;
                      ret (None, chk <| ResourceVersion := ResourceVersion cur |>)
                end
            end
        end
    end.

(** The loop of [StatusUpdate],
    [for retry, attempt := true, 1; retry; attempt++ { ... }], entered with
    the current [retry], [attempt] and [err]. Every turn of the loop takes
    one unit of [fuel]; [None] is returned when it runs out. *)
Fixpoint retryLoop (fuel : nat) (retry : bool) (attempt : nat)
  (err : option error) (cr : CHK) (opts : types.UpdateStatusOptions)
  : M (option (option error * CHK)) :=
  if retry then
    match fuel with
    | O => ret None
    | S fuel' =>
        let retry := if (60 <? attempt)%nat then false else retry in
        '(err, cr) <- doUpdateCRStatus cr opts ;;
        match err with
        | None => ret (Some (None, cr))
        | Some e =>
            _ <- (if retry
                  then _ <- emit (EvWarning "got error, will retry" e) ;; sleep
                  else emit (EvError "got error, all retries are exhausted" e)) ;;
            retryLoop fuel' retry (S attempt) err cr opts
        end
    end
  else ret (Some (err, cr)).

Definition StatusUpdateFuel (fuel : nat) (cr : CHK)
  (opts : types.UpdateStatusOptions) : M (option (option error * CHK)) :=
  done <- isContextDone ;;
  if done then
    _ <- emit (EvInfo "task is done") ;;
    ret (Some (None, cr))
  else retryLoop fuel true 1 None cr opts.

(** [StatusUpdate]; 61 turns of the loop are all it can take. *)
Definition StatusUpdate (cr : CHK) (opts : types.UpdateStatusOptions)
  : M (option (option error * CHK)) :=
  StatusUpdateFuel 61 cr opts.

(** A run starts in the world [w] with nothing recorded. *)
Definition start (w : World) : state := {| world := w; trace := [] |}.

(** Counting in a trace. *)
Definition isSleep (e : event) : bool :=
  match e with EvSleep => true | _ => false end.

Definition isGet (e : event) : bool :=
  match e with EvGet _ _ => true | _ => false end.

Definition isUpdate (e : event) : bool :=
  match e with EvUpdate _ => true | _ => false end.

(** The line with which an attempt announces itself before it fetches. *)
Definition isAttempt (e : event) : bool :=
  match e with
  | EvInfo msg => String.eqb msg "Update CHK status"
  | _ => false
  end.

Definition isStoreCall (e : event) : bool := isGet e || isUpdate e.

Definition count (p : event -> bool) (tr : list event) : nat :=
  List.length (filter p tr).

End Updater.

Arguments ClickHouseKeeperInstallation : clear implicits.
Arguments ICustomResource : clear implicits.
Arguments event : clear implicits.
Arguments Client : clear implicits.
Arguments state : clear implicits.
Arguments Done {A} a.
Arguments Panic {A} msg.

End kube.

(** ** A scripted store

    A store whose answers are written down in advance, to run the updater
    on: the context is done or not, every fetch and every write takes the
    next answer of its script (past its end the answer is success), a
    successful write stores the object under a new version token. *)
Module scripted.

Definition CHK : Type := kube.ClickHouseKeeperInstallation unit unit.

Record World := {
  ctxDone : bool;
  getErrors : list (option error);
  updateErrors : list (option error);
  stored : CHK;
}.

Definition emptyCHK : CHK := {|
  kube.Namespace := ""; kube.Name := ""; kube.ResourceVersion := "";
  kube.StatusPtr := None;
|}.

Definition get (namespace name : string) (w : World)
  : CHK * option error * World :=
  match getErrors w with
  | Some e :: rest => (emptyCHK, Some e, w <| getErrors := rest |>)
  | None :: rest => (stored w, None, w <| getErrors := rest |>)
  | [] => (stored w, None, w)
  end.

Definition update (cur : CHK) (w : World) : option error * World :=
  let written :=
    cur <| kube.ResourceVersion := (kube.ResourceVersion cur ++ "'")%string |> in
  match updateErrors w with
  | Some e :: rest => (Some e, w <| updateErrors := rest |>)
  | None :: rest => (None, w <| updateErrors := rest |> <| stored := written |>)
  | [] => (None, w <| stored := written |>)
  end.

#[export] Instance client : kube.Client unit unit World := {|
  kube.IsContextDone := ctxDone;
  kube.kubeClientGet := get;
  kube.kubeClientStatusUpdate := update;
  kube.timeSleep := fun w => w;
|}.

(** The resource of the examples and the store that holds it. *)
Definition chk0 : CHK := {|
  kube.Namespace := "ns"; kube.Name := "keeper"; kube.ResourceVersion := "1";
  kube.StatusPtr := None;
|}.

Definition world0 : World := {|
  ctxDone := false; getErrors := []; updateErrors := []; stored := chk0;
|}.

Definition opts0 (tolerateAbsence : bool) : types.UpdateStatusOptions := {|
  types.CopyStatusOptions_ := {|
    types.InheritableFields := false; types.Actions := true;
    types.Errors := true; types.MainFields := false;
    types.Normalized := false; types.WholeStatus := false |};
  types.TolerateAbsence := tolerateAbsence;
|}.

(** A store that refuses the next [n] writes. *)
Definition conflicts (n : nat) : World :=
  world0 <| updateErrors := repeat (Some "conflict") n |>.

(** A store whose next fetch fails. *)
Definition unreachable : World :=
  world0 <| getErrors := [Some "timeout"] |>.

(** A caller whose context is done. *)
Definition cancelled : World := world0 <| ctxDone := true |>.

(** The run of [StatusUpdate] against a store that refuses 60 writes. *)
Definition run60 :=
  kube.StatusUpdate chk0 (opts0 false) (kube.start (conflicts 60)).

End scripted.


(** ** Sequences of mutations of [Status] *)

Section StatusSequences.

Context {CHI TRef : Type}.

Variables version_Version version_GitSHA version_BuiltAt : string.

Local Abbreviation Status := (Status CHI TRef).

(** A call of a mutator of [Status] other than [CopyFrom], with its
    arguments. *)
Inductive mutation :=
| mFill (params : FillStatusParams.t CHI)
| mSetError (err : string)
| mSetAndPushError (err : string)
| mPushHostTablesCreated (host : string)
| mSyncHostTablesCreated
| mPushUsedTemplate (templateRef : TRef)
| mSetAction (action : string)
| mPushAction (action : string)
| mPushError (err : string)
| mSetPodIPs (podIPs : slice string)
| mHostDeleted
| mHostUpdated
| mHostAdded
| mHostUnchanged
| mHostFailed
| mHostCompleted
| mReconcileStart (deleteHostsCount : int)
| mReconcileComplete
| mReconcileAbort
| mDeleteStart
| mClearNormalizedCR
| mSetNormalizedCompletedFromCurrentNormalized.

Definition mutate (s : option Status) (m : mutation) : option Status :=
  match m with
  | mFill params =>
      Fill version_Version version_GitSHA version_BuiltAt s params
  | mSetError err => SetError s err
  | mSetAndPushError err => SetAndPushError s err
  | mPushHostTablesCreated host => PushHostTablesCreated s host
  | mSyncHostTablesCreated => SyncHostTablesCreated s
  | mPushUsedTemplate t => PushUsedTemplate s t
  | mSetAction action => SetAction s action
  | mPushAction action => PushAction s action
  | mPushError err => PushError s err
  | mSetPodIPs podIPs => SetPodIPs s podIPs
  | mHostDeleted => HostDeleted s
  | mHostUpdated => HostUpdated s
  | mHostAdded => HostAdded s
  | mHostUnchanged => HostUnchanged s
  | mHostFailed => HostFailed s
  | mHostCompleted => HostCompleted s
  | mReconcileStart n => ReconcileStart s n
  | mReconcileComplete => ReconcileComplete s
  | mReconcileAbort => ReconcileAbort s
  | mDeleteStart => DeleteStart s
  | mClearNormalizedCR => ClearNormalizedCR s
  | mSetNormalizedCompletedFromCurrentNormalized =>
      SetNormalizedCompletedFromCurrentNormalized s
  end.

(** The calls of a list, first call first. *)
Definition mutateAll (s : option Status) (ms : list mutation)
  : option Status :=
  fold_left mutate ms s.

(** How many calls of a list are the one that [p] picks. *)
Definition calls (p : mutation -> bool) (ms : list mutation) : Z :=
  Z.of_nat (List.length (filter p ms)).

Definition isHostDeleted (m : mutation) : bool :=
  match m with mHostDeleted => true | _ => false end.
Definition isHostUpdated (m : mutation) : bool :=
  match m with mHostUpdated => true | _ => false end.
Definition isHostAdded (m : mutation) : bool :=
  match m with mHostAdded => true | _ => false end.
Definition isHostUnchanged (m : mutation) : bool :=
  match m with mHostUnchanged => true | _ => false end.
Definition isHostFailed (m : mutation) : bool :=
  match m with mHostFailed => true | _ => false end.
Definition isHostCompleted (m : mutation) : bool :=
  match m with mHostCompleted => true | _ => false end.

(** The calls that only count a host. *)
Definition isHostCount (m : mutation) : bool :=
  isHostDeleted m || isHostUpdated m || isHostAdded m
  || isHostUnchanged m || isHostFailed m || isHostCompleted m.

(** A sequence of [PushError] calls, first call first. *)
Definition PushErrors (s : option Status) (errors : list string)
  : option Status :=
  fold_left PushError errors s.

(** A sequence of [PushUsedTemplate] calls, first call first. *)
Definition PushUsedTemplates (s : option Status) (templates : list TRef)
  : option Status :=
  fold_left PushUsedTemplate templates s.

(** The four histories are within their caps. *)
Definition capped (s : Status) : Prop :=
  (len (Actions s) <= maxActions)%nat /\
  (len (Errors s) <= maxErrors)%nat /\
  (len (TaskIDsStarted s) <= maxTaskIDs)%nat /\
  (len (TaskIDsCompleted s) <= maxTaskIDs)%nat.

(** An [int] that can be incremented [n] times without wrapping. *)
Definition roomFor (n : Z) (x : int) : Prop :=
  (- 2 ^ 63 <= x /\ x + n < 2 ^ 63)%Z.

End StatusSequences.

Arguments mutation : clear implicits.

(** The switches of a [CopyFrom] with one switch set. *)
Definition onlyInheritableFields : types.CopyStatusOptions := {|
  types.InheritableFields := true; types.Actions := false;
  types.Errors := false; types.MainFields := false;
  types.Normalized := false; types.WholeStatus := false;
|}.

Definition onlyMainFields : types.CopyStatusOptions := {|
  types.InheritableFields := false; types.Actions := false;
  types.Errors := false; types.MainFields := true;
  types.Normalized := false; types.WholeStatus := false;
|}.

Definition onlyWholeStatus : types.CopyStatusOptions := {|
  types.InheritableFields := false; types.Actions := false;
  types.Errors := false; types.MainFields := false;
  types.Normalized := false; types.WholeStatus := true;
|}.

(** ** The object that an attempt writes *)

(** What [doUpdateCRStatus] hands to the store: the fetched object [cur],
    given a status if it has none, with the caller's status copied into
    it. *)
Definition written {CHI TRef : Type} (opts : types.UpdateStatusOptions)
  (chk cur : kube.ClickHouseKeeperInstallation CHI TRef)
  : kube.ClickHouseKeeperInstallation CHI TRef :=
  (kube.EnsureStatus cur)
    <| kube.StatusPtr :=
         CopyFrom (kube.StatusPtr (kube.EnsureStatus cur)) (kube.StatusPtr chk)
                  (types.CopyStatusOptions_ opts) |>.

(** The calls to the store in a trace. *)
Definition storeCalls {CHI TRef : Type} (tr : list (kube.event CHI TRef))
  : list (kube.event CHI TRef) :=
  filter kube.isStoreCall tr.

(** A scripted store whose first fetch succeeds and whose second fails. *)
Definition refetchFails : scripted.World :=
  scripted.world0 <| scripted.getErrors := [None; Some "timeout"] |>.

(** ** Go maps

    A [map[string]string] is nil or a finite map; reading a key that is
    not there, and reading the nil map, give the empty string. *)
Definition gomap : Type := option (stdpp.gmap.gmap string string).

(** [m[k]] *)
Definition index (m : gomap) (k : string) : string :=
  match m with
  | None => ""
  | Some m =>
      match stdpp.base.lookup k m with
      | Some v => v
      | None => ""
      end
  end.

(** ** Package [types], file [list.go] *)
Module typesList.

Definition List : Type := gomap.

Definition Get (l : List) (name : string) : string := index l name.

(** An [apps.StatefulSet], reduced to the annotations of its pod template,
    [sts.Spec.Template.Annotations]. *)
Record StatefulSet := {
  SpecTemplateAnnotations : gomap;
}.

(** [markPodRestartedNow]; [now] is the text that
    [time.Now().UTC().MarshalText()] returns. *)
Definition markPodRestartedNow (now : string) (sts : StatefulSet)
  : StatefulSet :=
  let sts :=
    match SpecTemplateAnnotations sts with
    | None => sts <| SpecTemplateAnnotations := Some stdpp.base.empty |>
    | Some _ => sts
    end in
  sts <| SpecTemplateAnnotations :=
           option_map
             (stdpp.base.insert "kubectl.kubernetes.io/restartedAt" now)
             (SpecTemplateAnnotations sts) |>.

End typesList.

(** ** Package [metrics]: the watched installation *)
Module metrics.

(** A call returns or panics. *)
Inductive outcome (A : Type) :=
| Returns (a : A)
| Panics.

Arguments Returns {A} a.
Arguments Panics {A}.

(** What [readFrom] reads of an [api.Host]: the name, the FQDN of its
    runtime address and the values of its four ports. *)
Module Host.
Record t := {
  Name : string;
  FQDN : string;
  TCPPort : Z;
  TLSPort : Z;
  HTTPPort : Z;
  HTTPSPort : Z;
}.
End Host.

(** Modelled from the spec: an [api.ICluster] is an interface; its
    [WalkHosts] is "an iteration capability" over the hosts of the cluster,
    here the hosts it yields, in the order it yields them. *)
Module ICluster.
Record t := {
  GetName : string;
  hosts : list Host.t;
}.
End ICluster.

(** Modelled from the spec: an [api.ICustomResource] is an interface; its
    [WalkClusters] is "an iteration capability over clusters", here the
    clusters it yields, in the order it yields them. *)
Module ICustomResource.
Record t := {
  GetNamespace : string;
  GetName : string;
  GetLabels : gomap;
  GetAnnotations : gomap;
  clusters : list ICluster.t;
}.
End ICustomResource.

(** [cr.WalkClusters(f)] and [c.WalkHosts(f)] with a callback that returns
    no error: [f] is called on every element, in order; what the callback
    does to what it captures is a function on a state [S]. *)
Definition WalkClusters {S} (cr : ICustomResource.t)
  (f : ICluster.t -> S -> S) (s : S) : S :=
  fold_left (fun s c => f c s) (ICustomResource.clusters cr) s.

Definition WalkHostsOf {S} (c : ICluster.t) (f : Host.t -> S -> S) (s : S)
  : S :=
  fold_left (fun s h => f h s) (ICluster.hosts c) s.

Module WatchedHost.
Record t := {
  Name : string;
  Hostname : string;
  TCPPort : Z;
  TLSPort : Z;
  HTTPPort : Z;
  HTTPSPort : Z;
}.
Definition zero : t := {|
  Name := ""; Hostname := ""; TCPPort := 0; TLSPort := 0;
  HTTPPort := 0; HTTPSPort := 0;
|}.
End WatchedHost.

Module WatchedCluster.
Record t := {
  Name : string;
  Hosts : slice (option WatchedHost.t);
}.
Definition zero : t := {| Name := ""; Hosts := None |}.
End WatchedCluster.

Module WatchedCHI.
Record t := {
  Namespace : string;
  Name : string;
  Labels : gomap;
  Annotations : gomap;
  Clusters : slice (option WatchedCluster.t);
}.
Definition zero : t := {|
  Namespace := ""; Name := ""; Labels := None; Annotations := None;
  Clusters := None;
|}.
End WatchedCHI.

(** [(host *WatchedHost) readFrom(h)] *)
Definition hostReadFrom (host : option WatchedHost.t) (h : Host.t)
  : option WatchedHost.t :=
  match host with
  | None => None
  | Some host =>
      Some (host <| WatchedHost.Name := Host.Name h |>
                 <| WatchedHost.Hostname := Host.FQDN h |>
                 <| WatchedHost.TCPPort := Host.TCPPort h |>
                 <| WatchedHost.TLSPort := Host.TLSPort h |>
                 <| WatchedHost.HTTPPort := Host.HTTPPort h |>
                 <| WatchedHost.HTTPSPort := Host.HTTPSPort h |>)
  end.

(** [(cluster *WatchedCluster) readFrom(c)] *)
Definition clusterReadFrom (cluster : option WatchedCluster.t)
  (c : ICluster.t) : option WatchedCluster.t :=
  match cluster with
  | None => None
  | Some cluster =>
      let cluster := cluster <| WatchedCluster.Name := ICluster.GetName c |> in
      Some (WalkHostsOf c
              (fun h cluster =>
                 let host := hostReadFrom (Some WatchedHost.zero) h in
                 cluster <| WatchedCluster.Hosts :=
                              append (WatchedCluster.Hosts cluster) [host] |>)
              cluster)
  end.

(** [(chi *WatchedCHI) readFrom(cr)] *)
Definition readFrom (chi : option WatchedCHI.t) (cr : ICustomResource.t)
  : option WatchedCHI.t :=
  match chi with
  | None => None
  | Some chi =>
      let chi := chi <| WatchedCHI.Namespace := ICustomResource.GetNamespace cr |>
                     <| WatchedCHI.Name := ICustomResource.GetName cr |>
                     <| WatchedCHI.Labels := ICustomResource.GetLabels cr |>
                     <| WatchedCHI.Annotations := ICustomResource.GetAnnotations cr |> in
      Some (WalkClusters cr
              (fun cl chi =>
                 let cluster := clusterReadFrom (Some WatchedCluster.zero) cl in
                 chi <| WatchedCHI.Clusters :=
                          append (WatchedCHI.Clusters chi) [cluster] |>)
              chi)
  end.

Definition NewWatchedCHI (cr : ICustomResource.t) : option WatchedCHI.t :=
  readFrom (Some WatchedCHI.zero) cr.

(** [empty] reads the fields of its receiver without a test for nil. *)
Definition empty (chi : option WatchedCHI.t) : outcome bool :=
  match chi with
  | None => Panics
  | Some chi =>
      Returns ((String.length (WatchedCHI.Namespace chi) =? 0)%nat
               && (String.length (WatchedCHI.Name chi) =? 0)%nat
               && (len (WatchedCHI.Clusters chi) =? 0)%nat)%bool
  end.

Definition IsValid (chi : option WatchedCHI.t) : outcome bool :=
  match empty chi with
  | Returns b => Returns (negb b)
  | Panics => Panics
  end.

Definition IndexKey (chi : option WatchedCHI.t) : outcome string :=
  match chi with
  | None => Panics
  | Some chi =>
      Returns (WatchedCHI.Namespace chi ++ ":" ++ WatchedCHI.Name chi)%string
  end.

(** The inner loop of [WalkHosts], over the hosts of one cluster. *)
Definition walkClusterHosts {S} (chi : WatchedCHI.t) (cluster : WatchedCluster.t)
  (f : WatchedCHI.t -> WatchedCluster.t -> option WatchedHost.t -> S -> S)
  (s : S) : S :=
  fold_left (fun s host => f chi cluster host s)
            (elems (WatchedCluster.Hosts cluster)) s.

(** The outer loop of [WalkHosts]: a nil cluster is dereferenced for its
    hosts, which panics, after the calls already made. *)
Fixpoint walkClusters {S} (chi : WatchedCHI.t)
  (clusters : list (option WatchedCluster.t))
  (f : WatchedCHI.t -> WatchedCluster.t -> option WatchedHost.t -> S -> S)
  (s : S) : outcome unit * S :=
  match clusters with
  | [] => (Returns tt, s)
  | None :: _ => (Panics, s)
  | Some cluster :: rest =>
      walkClusters chi rest f (walkClusterHosts chi cluster f s)
  end.

(** [(chi *WatchedCHI) WalkHosts(f)]: the outcome and what the calls of [f]
    have made of the state. *)
Definition WalkHosts {S} (chi : option WatchedCHI.t)
  (f : WatchedCHI.t -> WatchedCluster.t -> option WatchedHost.t -> S -> S)
  (s : S) : outcome unit * S :=
  match chi with
  | None => (Returns tt, s)
  | Some chi => walkClusters chi (elems (WatchedCHI.Clusters chi)) f s
  end.

Definition GetName (chi : option WatchedCHI.t) : string :=
  match chi with
  | None => ""
  | Some chi => WatchedCHI.Name chi
  end.

Definition GetNamespace (chi : option WatchedCHI.t) : string :=
  match chi with
  | None => ""
  | Some chi => WatchedCHI.Namespace chi
  end.

Definition GetLabels (chi : option WatchedCHI.t) : gomap :=
  match chi with
  | None => None
  | Some chi => WatchedCHI.Labels chi
  end.

Definition GetAnnotations (chi : option WatchedCHI.t) : gomap :=
  match chi with
  | None => None
  | Some chi => WatchedCHI.Annotations chi
  end.

(** What [readFrom] makes of a host and of a cluster. *)
Definition watchedHost (h : Host.t) : WatchedHost.t := {|
  WatchedHost.Name := Host.Name h;
  WatchedHost.Hostname := Host.FQDN h;
  WatchedHost.TCPPort := Host.TCPPort h;
  WatchedHost.TLSPort := Host.TLSPort h;
  WatchedHost.HTTPPort := Host.HTTPPort h;
  WatchedHost.HTTPSPort := Host.HTTPSPort h;
|}.

Definition watchedCluster (c : ICluster.t) : WatchedCluster.t := {|
  WatchedCluster.Name := ICluster.GetName c;
  WatchedCluster.Hosts := append None (map (fun h => Some (watchedHost h))
                                           (ICluster.hosts c));
|}.

(** The callback that writes down the host it is called on. *)
Definition record (_ : WatchedCHI.t) (cluster : WatchedCluster.t)
  (host : option WatchedHost.t)
  (seen : list (string * option WatchedHost.t))
  : list (string * option WatchedHost.t) :=
  seen ++ [(WatchedCluster.Name cluster, host)].

(** A resource of two clusters to watch. *)
Definition host1 : Host.t := {|
  Host.Name := "0-0"; Host.FQDN := "h00.ns.svc"; Host.TCPPort := 9000;
  Host.TLSPort := 0; Host.HTTPPort := 8123; Host.HTTPSPort := 0;
|}.

Definition cr2 : ICustomResource.t := {|
  ICustomResource.GetNamespace := "ns";
  ICustomResource.GetName := "keeper";
  ICustomResource.GetLabels := None;
  ICustomResource.GetAnnotations := None;
  ICustomResource.clusters :=
    [ {| ICluster.GetName := "c0"; ICluster.hosts := [host1] |};
      {| ICluster.GetName := "c1"; ICluster.hosts := [] |} ];
|}.

End metrics.

(** ** Vocabulary for the watched installation *)

(** The hosts that walking [cr] yields, each with its cluster, in order. *)
Definition visits (cr : metrics.ICustomResource.t)
  : list (metrics.ICluster.t * metrics.Host.t) :=
  flat_map (fun c => map (pair c) (metrics.ICluster.hosts c))
           (metrics.ICustomResource.clusters cr).

(** [s] has no colon in it. *)
Fixpoint noColon (s : string) : bool :=
  match s with
  | EmptyString => true
  | String c s' => negb (String.eqb (String c "") ":") && noColon s'
  end.

(** The key of the restart annotation. *)
Definition restartedAt : string := "kubectl.kubernetes.io/restartedAt".

(** ** Vocabulary of the statements *)

(** [a] comes before [b] in reverse lexicographic order: [b < a] as Go
    compares strings, byte by byte. *)
Definition before (a b : string) : Prop := String.ltb b a = true.

(** [l] is the union of [a] and [b], every string once, in reverse
    lexicographic order. *)
Definition sortedUnion (a b l : list string) : Prop :=
  StronglySorted before l /\ NoDup l /\
  forall x, In x l <-> In x a \/ In x b.

(** The switches of a [CopyFrom] that has only [Errors] set. *)
Definition onlyErrors : types.CopyStatusOptions := {|
  types.InheritableFields := false; types.Actions := false;
  types.Errors := true; types.MainFields := false;
  types.Normalized := false; types.WholeStatus := false;
|}.

(** The switches of a [CopyFrom] that has only [Actions] set. *)
Definition onlyActions : types.CopyStatusOptions := {|
  types.InheritableFields := false; types.Actions := true;
  types.Errors := false; types.MainFields := false;
  types.Normalized := false; types.WholeStatus := false;
|}.

(** What merging the action history [f] into [a] leaves: the sorted union,
    cut to [maxActions]. *)
Definition mergedActions (a f : slice string) : list string :=
  firstn maxActions (sort.sorted (nodup string_dec (elems a ++ elems f))).

(** What replacing a list wholesale from [src] leaves: a copy of [src], or
    the nil slice when [src] is nil or empty. *)
Definition replaced {A} (src : slice A) : slice A :=
  if (0 <? len src)%nat then Some (elems src) else None.

(** Two aggregates to run [CopyFrom] on. *)
Definition statusA : Status unit unit :=
  zeroStatus <| Action := "old" |> <| Actions := Some ["a1"; "a3"] |>
             <| Errors := Some ["e1"] |>
             <| HostsWithTablesCreated := Some ["h0"] |>.

Definition statusB : Status unit unit :=
  zeroStatus <| Action := "new" |> <| Actions := Some ["a2"; "a3"] |>
             <| Errors := Some ["e2"; "e1"] |>
             <| HostsWithTablesCreated := Some ["h1"] |>
             <| UsedTemplates := Some [tt] |>.

(** An aggregate on which two hosts have failed. *)
Definition statusFailed : Status unit unit :=
  zeroStatus <| HostsFailedCount := 2%Z |>.

(** An aggregate on which "b" was pushed and then "a": "a" is its newest
    action. *)
Definition statusPushedBA : option (Status unit unit) :=
  PushActions (Some zeroStatus) ["b"; "a"].

(** The switches of a [CopyFrom] with [InheritableFields] and [Actions]
    set. *)
Definition inheritableAndActions : types.CopyStatusOptions := {|
  types.InheritableFields := true; types.Actions := true;
  types.Errors := false; types.MainFields := false;
  types.Normalized := false; types.WholeStatus := false;
|}.

(** What the step of the [Actions] switch establishes, and what the later
    steps keep. *)
Definition actionsCopied {CHI TRef} (from : Status CHI TRef)
  (history : list string) (s : Status CHI TRef) : Prop :=
  Action s = Action from /\
  Actions s = Some history /\
  HostsWithTablesCreated s = replaced (HostsWithTablesCreated from) /\
  UsedTemplates s = replaced (UsedTemplates from).

(** Unfolds the operations of the updater in the run [H]. *)
Ltac unfold_run H :=
  unfold kube.doUpdateCRStatus, kube.Get, kube.assertCHK, kube.bind, kube.ret,
    kube.panic, kube.emit, kube.isContextDone, kube.clientGet,
    kube.clientStatusUpdate, kube.sleep, kube.NamespaceName in H;
  cbn -[kube.EnsureStatus CopyFrom String.eqb] in H.

(** Takes a run apart, one step of the code at a time: the answer of the
    context, of the store, the switch of the options, the variables
    scrutinised. *)
Ltac step_run H :=
  match type of H with
  | context [kube.IsContextDone ?w] =>
      destruct (kube.IsContextDone w) eqn:?
  | context [kube.kubeClientGet ?a ?b ?w] =>
      destruct (kube.kubeClientGet a b w) as [[? ?] ?] eqn:?
  | context [kube.kubeClientStatusUpdate ?a ?w] =>
      destruct (kube.kubeClientStatusUpdate a w) as [? ?] eqn:?
  | context [types.TolerateAbsence ?o] =>
      destruct (types.TolerateAbsence o) eqn:?
  | context [if String.eqb ?a ?b then _ else _] =>
      destruct (String.eqb a b) eqn:?
  | context [match ?x with _ => _ end] => is_var x; destruct x
  end;
  cbn -[kube.EnsureStatus CopyFrom String.eqb] in H.

Ltac split_run H := repeat step_run H.

(** * Proofs *)

(** ** The order of strings *)

Lemma ltb_lt (a b : string) : String.ltb a b = true <-> String_as_OT.lt a b.
Proof.
  unfold String.ltb. rewrite <- String_as_OT.cmp_lt.
  unfold String_as_OT.cmp. destruct (String.compare a b); intuition congruence.
Qed.

Lemma before_irrefl (a : string) : ~ before a a.
Proof.
  unfold before. rewrite ltb_lt. intro H.
  exact (String_as_OT.lt_not_eq _ _ H eq_refl).
Qed.

Lemma before_trans (a b c : string) : before a b -> before b c -> before a c.
Proof.
  unfold before. rewrite !ltb_lt. intros H1 H2.
  exact (String_as_OT.lt_trans _ _ _ H2 H1).
Qed.

Lemma before_asym (a b : string) : before a b -> ~ before b a.
Proof.
  intros H1 H2. exact (before_irrefl a (before_trans _ _ _ H1 H2)).
Qed.

Lemma before_total (a b : string) : before a b \/ a = b \/ before b a.
Proof.
  unfold before, String.ltb.
  rewrite (String.compare_antisym b a).
  destruct (String.compare a b) eqn:E; simpl; auto.
  apply String.compare_eq_iff in E. auto.
Qed.

(** ** [sort]: the outcome is a descending permutation *)

Lemma insert_perm (a : string) (l : list string) :
  Permutation (sort.insert a l) (a :: l).
Proof.
  induction l as [|b l IH]; simpl.
  - apply Permutation_refl.
  - destruct (sort.ReverseLess b a).
    + eapply perm_trans; [apply perm_skip, IH | apply perm_swap].
    + apply Permutation_refl.
Qed.

Lemma sorted_perm (l : list string) : Permutation (sort.sorted l) l.
Proof.
  induction l as [|a l IH]; simpl.
  - apply perm_nil.
  - eapply perm_trans; [apply insert_perm | apply perm_skip, IH].
Qed.

Lemma sorted_In (l : list string) (x : string) :
  In x (sort.sorted l) <-> In x l.
Proof.
  split; apply Permutation_in;
    [apply sorted_perm | apply Permutation_sym, sorted_perm].
Qed.

Lemma sorted_length (l : list string) :
  List.length (sort.sorted l) = List.length l.
Proof. apply Permutation_length, sorted_perm. Qed.

Lemma sorted_NoDup (l : list string) : NoDup l -> NoDup (sort.sorted l).
Proof.
  intro H. eapply Permutation_NoDup; [apply Permutation_sym, sorted_perm | exact H].
Qed.

(** Inserting a string that the list does not have keeps it strictly
    descending. *)
Lemma insert_descending (a : string) (l : list string) :
  StronglySorted before l -> ~ In a l ->
  StronglySorted before (sort.insert a l).
Proof.
  induction l as [|b l IH]; simpl; intros Hs Hn.
  - constructor; [constructor | constructor].
  - apply StronglySorted_inv in Hs. destruct Hs as [Hl Hb].
    unfold sort.ReverseLess, sort.Less.
    destruct (String.ltb a b) eqn:E.
    + constructor.
      * apply IH; [exact Hl | intro; apply Hn; now right].
      * rewrite Forall_forall in *. intros x Hx.
        apply (Permutation_in _ (insert_perm a l)) in Hx.
        destruct Hx as [<- | Hx]; [exact E | now apply Hb].
    + assert (Hab : before a b).
      { destruct (before_total a b) as [H | [H | H]]; [exact H | | ].
        - exfalso. apply Hn. now left.
        - unfold before in H. congruence. }
      constructor.
      * constructor; assumption.
      * constructor; [exact Hab |].
        rewrite Forall_forall in *. intros x Hx.
        eapply before_trans; [exact Hab | now apply Hb].
Qed.

Lemma sorted_descending (l : list string) :
  NoDup l -> StronglySorted before (sort.sorted l).
Proof.
  induction 1 as [|a l Hn Hd IH]; simpl.
  - constructor.
  - apply insert_descending; [exact IH | now rewrite sorted_In].
Qed.

(** The sorted union of the model: what [MergeStringArrays] followed by the
    sort leaves. *)
Lemma sorted_merge_sortedUnion (a b : list string) :
  sortedUnion a b (sort.sorted (nodup string_dec (a ++ b))).
Proof.
  repeat split.
  - apply sorted_descending, NoDup_nodup.
  - apply sorted_NoDup, NoDup_nodup.
  - rewrite sorted_In, nodup_In, in_app_iff. tauto.
  - rewrite sorted_In, nodup_In, in_app_iff. tauto.
Qed.

Lemma In_firstn {A} (n : nat) (l : list A) (x : A) :
  In x (firstn n l) -> In x l.
Proof.
  intro H. rewrite <- (firstn_skipn n l). apply in_or_app. now left.
Qed.

(** Two strictly descending lists with the same strings are the same list,
    and more: the first [n] strings of one are the first [n] of any
    descending list between them and the whole. *)
Lemma firstn_descending_stable (n : nat) :
  forall L L' : list string,
    StronglySorted before L -> StronglySorted before L' ->
    incl (firstn n L) L' -> incl L' L ->
    firstn n L' = firstn n L.
Proof.
  induction n as [|n IH]; intros L L' HL HL' H1 H2; [reflexivity |].
  destruct L as [|x L1].
  - destruct L' as [|y L1']; [reflexivity |].
    exfalso. apply (H2 y). now left.
  - assert (Hx : In x L') by (apply H1; now left).
    destruct L' as [|y L1']; [destruct Hx |].
    apply StronglySorted_inv in HL. destruct HL as [HL1 Hx1].
    apply StronglySorted_inv in HL'. destruct HL' as [HL1' Hy1].
    rewrite Forall_forall in Hx1, Hy1.
    assert (y = x) as ->.
    { destruct Hx as [E | Hx]; [exact E |].
      assert (Hy : In y (x :: L1)) by (apply H2; now left).
      destruct Hy as [E | Hy]; [now symmetry |].
      exfalso. exact (before_asym _ _ (Hx1 _ Hy) (Hy1 _ Hx)). }
    simpl. f_equal. apply IH; trivial.
    + intros z Hz.
      assert (Hz1 : In z L1) by (eapply In_firstn; exact Hz).
      assert (Hz' : In z (x :: L1')) by (apply H1; now right).
      destruct Hz' as [<- | Hz']; [| exact Hz'].
      exfalso. exact (before_irrefl _ (Hx1 _ Hz1)).
    + intros z Hz.
      assert (Hz' : In z (x :: L1)) by (apply H2; now right).
      destruct Hz' as [<- | Hz']; [| exact Hz'].
      exfalso. exact (before_irrefl _ (Hy1 _ Hz)).
Qed.

(** ** The histories of [Status] *)

Section StatusFacts.

Context {CHI TRef : Type}.

Local Abbreviation Status := (Status CHI TRef).

(** Cutting a slice that is short enough changes nothing, so the elements
    left by a cut are, in both cases, the first [n]. *)
Lemma elems_cut {A} (n : nat) (s : slice A) :
  elems (if (n <? len s)%nat then upto n s else s) = firstn n (elems s).
Proof.
  destruct (n <? len s)%nat eqn:E; [reflexivity |].
  apply Nat.ltb_ge in E. symmetry. now apply firstn_all2.
Qed.

Lemma elems_pushCapped (n : nat) (x : string) (s : slice string) :
  elems (pushCapped n x s) = firstn n (x :: elems s).
Proof. unfold pushCapped. now rewrite elems_cut. Qed.

Lemma elems_trimActionsNoSync (s : Status) :
  elems (Actions (trimActionsNoSync s)) = firstn maxActions (elems (Actions s)).
Proof.
  unfold trimActionsNoSync.
  destruct (maxActions <? len (Actions s))%nat eqn:E; [reflexivity |].
  apply Nat.ltb_ge in E. symmetry. now apply firstn_all2.
Qed.

Lemma PushAction_Some (s : Status) (a : string) :
  exists s', PushAction (Some s) a = Some s' /\
             elems (Actions s') = firstn maxActions (a :: elems (Actions s)).
Proof.
  eexists. split; [reflexivity |].
  now rewrite elems_trimActionsNoSync.
Qed.

Lemma firstn_cons_firstn {A} (n : nat) (a : A) (l : list A) :
  firstn n (a :: firstn n l) = firstn n (a :: l).
Proof.
  destruct n as [|n]; [reflexivity |].
  rewrite !firstn_cons. f_equal. rewrite firstn_firstn. f_equal. lia.
Qed.

Lemma PushActions_Some (actions : list string) :
  forall (s : Status) (l : list string),
    elems (Actions s) = firstn maxActions l ->
    exists s', PushActions (Some s) actions = Some s' /\
               elems (Actions s') = firstn maxActions (rev actions ++ l).
Proof.
  induction actions as [|a actions IH]; intros s l Hs.
  - exists s. now split.
  - destruct (PushAction_Some s a) as [s1 [E1 H1]].
    destruct (IH s1 (a :: l)) as [s' [E' H']].
    { rewrite H1, Hs. apply firstn_cons_firstn. }
    exists s'. split.
    + unfold PushActions in *. cbn [fold_left]. now rewrite E1.
    + rewrite H'. simpl. now rewrite <- app_assoc.
Qed.

(** C3. After any sequence of [PushAction] calls on a [Status], the
    history [Actions] holds the pushed actions newest first, the last call
    at the head, followed by what the history held before, and is cut to
    its first 10 entries: the oldest are dropped and the length is at most
    10. This holds from an empty history for every sequence, and from any
    history at all as soon as one call is made. *)
Theorem PushAction_sequence_newest_first_capped
  (s : Status) (actions : list string) :
  (exists s',
     PushActions (Some (s <| Actions := None |>)) actions = Some s' /\
     elems (GetActions (Some s')) = firstn 10 (rev actions) /\
     (len (GetActions (Some s')) <= 10)%nat) /\
  (forall a, exists s',
     PushActions (Some s) (a :: actions) = Some s' /\
     elems (GetActions (Some s')) =
       firstn 10 (rev (a :: actions) ++ elems (Actions s)) /\
     (len (GetActions (Some s')) <= 10)%nat).
Proof.
  split.
  - assert (H0 : elems (Actions (s <| Actions := None |>)) = firstn maxActions [])
      by reflexivity.
    destruct (PushActions_Some actions (s <| Actions := None |>) [] H0)
      as [s' [E' H']].
    rewrite app_nil_r in H'.
    exists s'. split; [exact E' | split].
    + exact H'.
    + unfold len. cbn [GetActions getStringArrWithReadLock].
      rewrite H'. apply firstn_le_length.
  - intro a.
    destruct (PushAction_Some s a) as [s1 [E1 H1]].
    destruct (PushActions_Some actions s1 (a :: elems (Actions s)) H1)
      as [s' [E' H']].
    exists s'. split; [| split].
    + unfold PushActions in *. cbn [fold_left]. now rewrite E1.
    + cbn [GetActions getStringArrWithReadLock]. rewrite H'.
      cbn [rev]. now rewrite <- app_assoc.
    + unfold len. cbn [GetActions getStringArrWithReadLock].
      rewrite H'. apply firstn_le_length.
Qed.

(** C5. [SyncHostTablesCreated] on a [Status] whose FQDN list is nil
    changes nothing; on one whose FQDN list is set (empty or not) it
    changes the table-created list only, to the entries it had that are in
    the FQDN list, in their order. *)
Theorem SyncHostTablesCreated_intersects (s : Status) :
  match FQDNs s with
  | None => SyncHostTablesCreated (Some s) = Some s
  | Some fqdns =>
      exists kept,
        SyncHostTablesCreated (Some s) =
          Some (s <| HostsWithTablesCreated := Some kept |>) /\
        kept = filter (fun x => existsb (String.eqb x) fqdns)
                      (elems (HostsWithTablesCreated s)) /\
        forall x, In x kept <->
                  In x (elems (HostsWithTablesCreated s)) /\ In x fqdns
  end.
Proof.
  destruct (FQDNs s) as [fqdns|] eqn:E.
  - eexists. split; [| split; [reflexivity |]].
    + unfold SyncHostTablesCreated, doWithWriteLock. rewrite E.
      unfold util.IntersectStringArrays, util.InArray. reflexivity.
    + intro x. rewrite filter_In, existsb_exists.
      split.
      * intros [H [y [Hy Hxy]]]. apply String.eqb_eq in Hxy. now subst.
      * intros [H1 H2]. split; [exact H1 |].
        exists x. split; [exact H2 | apply String.eqb_refl].
  - unfold SyncHostTablesCreated, doWithWriteLock. now rewrite E.
Qed.

(** C6, as amended. [ReconcileStart] sets the updated, added, unchanged,
    completed and deleted counters to zero, sets the to-delete counter to
    its argument, leaves the failed counter as it was, and pushes the task
    id onto the started history; a [ReconcileComplete] that follows pushes
    the task id onto the completed history and leaves the started history
    alone. Each history gets exactly one entry, at its head, and is cut to
    10. *)
Theorem ReconcileStart_then_ReconcileComplete
  (s : Status) (deleteHostsCount : int) :
  exists s1 s2,
    ReconcileStart (Some s) deleteHostsCount = Some s1 /\
    ReconcileComplete (Some s1) = Some s2 /\
    HostsUpdatedCount s1 = 0%Z /\ HostsAddedCount s1 = 0%Z /\
    HostsUnchangedCount s1 = 0%Z /\ HostsCompletedCount s1 = 0%Z /\
    HostsDeletedCount s1 = 0%Z /\
    HostsDeleteCount s1 = deleteHostsCount /\
    HostsFailedCount s1 = HostsFailedCount s /\
    elems (TaskIDsStarted s1) = firstn 10 (TaskID s :: elems (TaskIDsStarted s)) /\
    TaskIDsCompleted s1 = TaskIDsCompleted s /\
    TaskIDsStarted s2 = TaskIDsStarted s1 /\
    elems (TaskIDsCompleted s2) =
      firstn 10 (TaskID s :: elems (TaskIDsCompleted s)).
Proof.
  do 2 eexists. split; [reflexivity |]. split; [reflexivity |].
  repeat split.
  - cbn. apply elems_pushCapped.
  - cbn. apply elems_pushCapped.
Qed.

(** C10. [ReconcileComplete] and [ReconcileAbort] set the action to the
    empty string, the phase to Completed, respectively Aborted, and put the
    task id at the head of the completed history (cut to 10); putting the
    old values of these three fields back gives the [Status] of before, so
    no other field has changed. *)
Theorem ReconcileComplete_and_Abort_frame (s : Status) :
  exists c a,
    ReconcileComplete (Some s) = Some c /\
    ReconcileAbort (Some s) = Some a /\
    Action c = "" /\ Status_ c = "Completed" /\
    elems (TaskIDsCompleted c) =
      firstn 10 (TaskID s :: elems (TaskIDsCompleted s)) /\
    c <| Status_ := Status_ s |> <| Action := Action s |>
      <| TaskIDsCompleted := TaskIDsCompleted s |> = s /\
    Action a = "" /\ Status_ a = "Aborted" /\
    elems (TaskIDsCompleted a) =
      firstn 10 (TaskID s :: elems (TaskIDsCompleted s)) /\
    a <| Status_ := Status_ s |> <| Action := Action s |>
      <| TaskIDsCompleted := TaskIDsCompleted s |> = s.
Proof.
  do 2 eexists. split; [reflexivity |]. split; [reflexivity |].
  repeat split.
  - cbn. apply elems_pushCapped.
  - destruct s; reflexivity.
  - cbn. apply elems_pushCapped.
  - destruct s; reflexivity.
Qed.

(** The nil [*Status]. *)
Local Abbreviation nilStatus := (@None Status).

(** C9. On a nil receiver every mutator does nothing: the receiver is
    still nil and, for [CopyFrom], so is the case of a nil source, which
    leaves the receiver as it was. Every accessor returns the zero value of
    its type: the empty string, 0, an empty sequence, the nil pointer,
    false. *)
Theorem nil_receiver_is_safe :
  (forall v c d params, Fill v c d nilStatus params = None) /\
  (forall err, SetError nilStatus err = None) /\
  (forall err, SetAndPushError nilStatus err = None) /\
  (forall host, PushHostTablesCreated nilStatus host = None) /\
  SyncHostTablesCreated nilStatus = None /\
  (forall t, PushUsedTemplate nilStatus t = None) /\
  (forall a, SetAction nilStatus a = None) /\
  (forall a, PushAction nilStatus a = None) /\
  (forall e, PushError nilStatus e = None) /\
  (forall ips, SetPodIPs nilStatus ips = None) /\
  HostDeleted nilStatus = None /\
  HostUpdated nilStatus = None /\
  HostAdded nilStatus = None /\
  HostUnchanged nilStatus = None /\
  HostFailed nilStatus = None /\
  HostCompleted nilStatus = None /\
  (forall n, ReconcileStart nilStatus n = None) /\
  ReconcileComplete nilStatus = None /\
  ReconcileAbort nilStatus = None /\
  DeleteStart nilStatus = None /\
  ClearNormalizedCR nilStatus = None /\
  SetNormalizedCompletedFromCurrentNormalized nilStatus = None /\
  (forall (f : option Status) opts, CopyFrom nilStatus f opts = None) /\
  (forall (s : option Status) opts, CopyFrom s nilStatus opts = s) /\
  GetUsedTemplatesCount nilStatus = 0%Z /\
  GetCHOpVersion nilStatus = "" /\
  GetCHOpCommit nilStatus = "" /\
  GetCHOpDate nilStatus = "" /\
  GetCHOpIP nilStatus = "" /\
  GetClustersCount nilStatus = 0%Z /\
  GetShardsCount nilStatus = 0%Z /\
  GetReplicasCount nilStatus = 0%Z /\
  GetHostsCount nilStatus = 0%Z /\
  GetStatus nilStatus = "" /\
  GetTaskID nilStatus = "" /\
  GetTaskIDsStarted nilStatus = Some [] /\
  GetTaskIDsCompleted nilStatus = Some [] /\
  GetAction nilStatus = "" /\
  GetActions nilStatus = Some [] /\
  GetError nilStatus = "" /\
  GetErrors nilStatus = Some [] /\
  GetHostsUpdatedCount nilStatus = 0%Z /\
  GetHostsAddedCount nilStatus = 0%Z /\
  GetHostsUnchangedCount nilStatus = 0%Z /\
  GetHostsFailedCount nilStatus = 0%Z /\
  GetHostsCompletedCount nilStatus = 0%Z /\
  GetHostsDeletedCount nilStatus = 0%Z /\
  GetHostsDeleteCount nilStatus = 0%Z /\
  GetPods nilStatus = Some [] /\
  GetPodIPs nilStatus = Some [] /\
  GetFQDNs nilStatus = Some [] /\
  GetEndpoint nilStatus = "" /\
  GetNormalizedCR nilStatus = None /\
  GetNormalizedCRCompleted nilStatus = None /\
  GetHostsWithTablesCreated nilStatus = Some [] /\
  HasNormalizedCRCompleted nilStatus = false /\
  HasNormalizedCR nilStatus = false.
Proof.
  repeat split; try reflexivity.
  intros s opts. destruct s; reflexivity.
Qed.

End StatusFacts.

(** C6, what fails: [ReconcileStart] does not zero all seven counters. The
    failed-hosts counter keeps its value and the to-delete counter takes
    the argument of the call. *)
Lemma ReconcileStart_counters_not_all_zero :
  GetHostsFailedCount (ReconcileStart (Some statusFailed) 3%Z) = 2%Z /\
  GetHostsDeleteCount (ReconcileStart (Some statusFailed) 3%Z) = 3%Z /\
  ~ (GetHostsFailedCount (ReconcileStart (Some statusFailed) 3%Z) = 0%Z /\
     GetHostsDeleteCount (ReconcileStart (Some statusFailed) 3%Z) = 0%Z).
Proof.
  split; [reflexivity | split; [reflexivity |]].
  intros [H _]. discriminate H.
Qed.


(** ** [CopyFrom] *)

Section CopyFromFacts.

Context {CHI TRef : Type}.

Local Abbreviation Status := (Status CHI TRef).

Lemma mergeActionsNoSync_eq (s from : Status) :
  mergeActionsNoSync s from =
    s <| Actions := Some (mergedActions (Actions s) (Actions from)) |>.
Proof.
  unfold mergeActionsNoSync, trimActionsNoSync, mergedActions.
  unfold util.MergeStringArrays, sort.SortReverseStringSlice.
  destruct s; cbn -[Nat.ltb firstn].
  match goal with
  | |- context [(maxActions <? ?n)%nat] =>
      destruct (maxActions <? n)%nat eqn:E
  end.
  - reflexivity.
  - apply Nat.ltb_ge in E. unfold len in E. cbn -[Nat.ltb firstn] in E.
    unfold constant. now rewrite (firstn_all2 (n := maxActions) _ E).
Qed.

Lemma mergedActions_sortedUnion (a f : slice string) :
  exists full,
    sortedUnion (elems a) (elems f) full /\
    mergedActions a f = firstn 10 full.
Proof.
  eexists. split; [apply sorted_merge_sortedUnion | reflexivity].
Qed.

(** Merging the same source a second time changes nothing. *)
Lemma mergedActions_idem (a f : slice string) :
  mergedActions (Some (mergedActions a f)) f = mergedActions a f.
Proof.
  unfold mergedActions at 1 3.
  destruct (sorted_merge_sortedUnion (elems a) (elems f)) as [S1 [_ I1]].
  destruct (sorted_merge_sortedUnion (elems (Some (mergedActions a f))) (elems f))
    as [S2 [_ I2]].
  apply firstn_descending_stable; trivial.
  - intros x Hx. apply I2. now left.
  - intros x Hx. apply I2 in Hx. destruct Hx as [Hx | Hx].
    + cbn [elems] in Hx. unfold mergedActions in Hx.
      now apply In_firstn in Hx.
    + apply I1. now right.
Qed.

Lemma elems_replaced {A} (src : slice A) : elems (replaced src) = elems src.
Proof.
  unfold replaced, len. destruct src as [[|x l]|]; reflexivity.
Qed.

Lemma append_nil_nonempty {A} (src : slice A) :
  (0 <? len src)%nat = true -> append None (elems src) = Some (elems src).
Proof.
  destruct src as [[|x l]|]; cbn; try discriminate; reflexivity.
Qed.

Lemma copyActions_actionsCopied (from s : Status) :
  actionsCopied from (mergedActions (Actions s) (Actions from))
                (copyActions from s).
Proof.
  unfold copyActions. rewrite mergeActionsNoSync_eq.
  unfold actionsCopied, replaced.
  destruct (0 <? len (HostsWithTablesCreated from))%nat eqn:E1;
    destruct (0 <? len (UsedTemplates from))%nat eqn:E2;
    repeat split; cbn -[append]; try reflexivity.
  all: unfold constant; now apply append_nil_nonempty.
Qed.

Lemma copyErrors_actionsCopied (from : Status) (h : list string) (s : Status) :
  actionsCopied from h s -> actionsCopied from h (copyErrors from s).
Proof. intro H. exact H. Qed.

Lemma copyNormalized_actionsCopied (from : Status) (h : list string)
  (s : Status) :
  actionsCopied from h s -> actionsCopied from h (copyNormalized from s).
Proof. intro H. exact H. Qed.

Lemma copyMainFields_actionsCopied (from : Status) (a : slice string)
  (s : Status) :
  actionsCopied from (mergedActions a (Actions from)) s ->
  actionsCopied from (mergedActions a (Actions from)) (copyMainFields from s).
Proof.
  unfold actionsCopied, copyMainFields.
  rewrite mergeActionsNoSync_eq.
  destruct s. cbn -[mergedActions replaced]. unfold constant.
  intros [H1 [H2 [H3 H4]]]. subst.
  repeat split. now rewrite mergedActions_idem.
Qed.

Lemma copyWholeStatus_actionsCopied (from : Status) (a : slice string)
  (s : Status) :
  actionsCopied from (mergedActions a (Actions from)) s ->
  actionsCopied from (mergedActions a (Actions from)) (copyWholeStatus from s).
Proof.
  intro H. apply copyMainFields_actionsCopied in H. exact H.
Qed.

Lemma when_actionsCopied (b : bool) (f : Status -> Status) (from : Status)
  (h : list string) (s : Status) :
  (actionsCopied from h s -> actionsCopied from h (f s)) ->
  actionsCopied from h s -> actionsCopied from h (when b f s).
Proof. destruct b; simpl; auto. Qed.

(** C7, as amended. [CopyFrom] with the [Actions] switch set, between two
    aggregates that are not nil: the action of the receiver becomes that of
    the source; its action history becomes the union of the history it has
    when that step runs (its own, or the source's when the inheritable
    switch has just copied it over its own) and of the source's, every
    string once, in reverse lexicographic order of the strings, byte by
    byte, whatever the order in which they were pushed, cut to 10; its
    table-created list and its template list become copies of the source's,
    nil when the source's is nil or empty. The switches applied afterwards
    keep all of this. *)
Theorem CopyFrom_Actions_merges_history
  (s from : Status) (opts : types.CopyStatusOptions)
  (H : types.Actions opts = true) :
  exists r full,
    CopyFrom (Some s) (Some from) opts = Some r /\
    Action r = Action from /\
    sortedUnion
      (elems (if types.InheritableFields opts then Actions from else Actions s))
      (elems (Actions from)) full /\
    Actions r = Some (firstn 10 full) /\
    (len (Actions r) <= 10)%nat /\
    HostsWithTablesCreated r = replaced (HostsWithTablesCreated from) /\
    elems (HostsWithTablesCreated r) = elems (HostsWithTablesCreated from) /\
    UsedTemplates r = replaced (UsedTemplates from) /\
    elems (UsedTemplates r) = elems (UsedTemplates from).
Proof.
  set (base := if types.InheritableFields opts then Actions from else Actions s).
  destruct (mergedActions_sortedUnion base (Actions from)) as [full [HU HM]].
  assert (HC : exists r,
             CopyFrom (Some s) (Some from) opts = Some r /\
             actionsCopied from (mergedActions base (Actions from)) r).
  { eexists. split; [reflexivity |].
    unfold doWithReadLock. rewrite H.
    apply when_actionsCopied; [apply copyWholeStatus_actionsCopied |].
    apply when_actionsCopied; [apply copyNormalized_actionsCopied |].
    apply when_actionsCopied; [apply copyMainFields_actionsCopied |].
    apply when_actionsCopied; [apply copyErrors_actionsCopied |].
    unfold when at 1.
    replace base
      with (Actions (when (types.InheritableFields opts)
                          (copyInheritableFields from) s))
      by (unfold base; destruct (types.InheritableFields opts); reflexivity).
    apply copyActions_actionsCopied. }
  destruct HC as [r [HR [H1 [H2 [H3 H4]]]]].
  exists r, full. rewrite H2, H3, H4, !elems_replaced, HM.
  repeat split; trivial; try apply HU.
  unfold len. cbn [elems]. apply firstn_le_length.
Qed.

(** C4. [CopyFrom] with only the [Errors] switch set, between two
    aggregates that are not nil: putting the old values of [Error] and
    [Errors] back gives the receiver of before, so no other field has
    changed; the error becomes the source's; the error history becomes the
    union of both histories, every string once, in reverse lexicographic
    order, and nothing is cut off: it has as many entries as there are
    different strings in the two histories. *)
Theorem CopyFrom_onlyErrors_merges_without_cap (s from : Status) :
  exists r merged,
    CopyFrom (Some s) (Some from) onlyErrors = Some r /\
    r <| Error := Error s |> <| Errors := Errors s |> = s /\
    Error r = Error from /\
    Errors r = Some merged /\
    sortedUnion (elems (Errors s)) (elems (Errors from)) merged /\
    List.length merged =
      List.length (nodup string_dec (elems (Errors s) ++ elems (Errors from))).
Proof.
  do 2 eexists. split; [reflexivity |].
  split; [destruct s; reflexivity |].
  split; [reflexivity |].
  split; [reflexivity |].
  split; [apply sorted_merge_sortedUnion | apply sorted_length].
Qed.

End CopyFromFacts.

(** The merge of C7 on [statusA] and [statusB]. *)
Lemma CopyFrom_Actions_merges_history_witness :
  types.Actions onlyActions = true /\
  exists r full,
    CopyFrom (Some statusA) (Some statusB) onlyActions = Some r /\
    Action r = "new" /\
    sortedUnion ["a1"; "a3"] ["a2"; "a3"] full /\
    Actions r = Some (firstn 10 full) /\
    (len (Actions r) <= 10)%nat /\
    HostsWithTablesCreated r = Some ["h1"] /\
    elems (HostsWithTablesCreated r) = ["h1"] /\
    UsedTemplates r = Some [tt] /\
    elems (UsedTemplates r) = [tt].
Proof.
  split; [reflexivity |].
  exact (CopyFrom_Actions_merges_history statusA statusB onlyActions eq_refl).
Defined.

(** C7, what fails. The merge orders the history by the strings, not by
    recency: on an aggregate where "b" was pushed before "a", so that "a"
    is the newest, [CopyFrom] with only [Actions] set, from a source without
    history, leaves "b" ahead of "a". And with [InheritableFields] set as
    well, the history is not the union of both: "a1", which only the
    receiver had, is gone. *)
Lemma CopyFrom_Actions_orders_by_content_not_recency :
  GetActions statusPushedBA = Some ["a"; "b"] /\
  GetActions (CopyFrom statusPushedBA (Some zeroStatus) onlyActions)
  = Some ["b"; "a"] /\
  GetActions (CopyFrom statusPushedBA (Some zeroStatus) onlyActions)
  <> Some ["a"; "b"] /\
  GetActions (CopyFrom (Some statusA) (Some statusB) inheritableAndActions)
  = Some ["a3"; "a2"] /\
  ~ In "a1" (elems (GetActions (CopyFrom (Some statusA) (Some statusB)
                                         inheritableAndActions))).
Proof.
  assert (E1 : GetActions (CopyFrom statusPushedBA (Some zeroStatus) onlyActions)
               = Some ["b"; "a"]) by (vm_compute; reflexivity).
  assert (E2 : GetActions (CopyFrom (Some statusA) (Some statusB)
                                    inheritableAndActions)
               = Some ["a3"; "a2"]) by (vm_compute; reflexivity).
  repeat apply conj.
  - vm_compute. reflexivity.
  - exact E1.
  - rewrite E1. discriminate.
  - exact E2.
  - rewrite E2. cbn. intros [H | [H | []]]; discriminate H.
Qed.

(** ** The status updater *)

Section UpdaterFacts.

Context {CHI TRef World : Type} {client : kube.Client CHI TRef World}.

Local Abbreviation CHK := (kube.ClickHouseKeeperInstallation CHI TRef).
Local Abbreviation state := (kube.state CHI TRef World).

Lemma count_app (p : kube.event CHI TRef -> bool) (l l' : list (kube.event CHI TRef)) :
  kube.count p (l ++ l') = (kube.count p l + kube.count p l')%nat.
Proof. unfold kube.count. now rewrite filter_app, length_app. Qed.

(** One attempt: it does not sleep, announces itself at most once, writes
    at most once and fetches at most twice; when it returns an error it has
    announced itself and has left the caller's object alone. *)
Lemma doUpdateCRStatus_counts (chk : CHK) (opts : types.UpdateStatusOptions)
  (st st' : state) (r : kube.result (option error * CHK)) :
  kube.doUpdateCRStatus chk opts st = (r, st') ->
  kube.count kube.isSleep (kube.trace st') = kube.count kube.isSleep (kube.trace st) /\
  (kube.count kube.isAttempt (kube.trace st')
   <= kube.count kube.isAttempt (kube.trace st) + 1)%nat /\
  (kube.count kube.isUpdate (kube.trace st')
   <= kube.count kube.isUpdate (kube.trace st) + 1)%nat /\
  (kube.count kube.isGet (kube.trace st')
   <= kube.count kube.isGet (kube.trace st) + 2)%nat /\
  forall e c, r = kube.Done (Some e, c) ->
    c = chk /\
    kube.count kube.isAttempt (kube.trace st')
    = (kube.count kube.isAttempt (kube.trace st) + 1)%nat.
Proof.
  destruct st as [w tr]. intro Hrun. unfold_run Hrun. split_run Hrun.
  all: inversion Hrun; subst; clear Hrun.
  all: cbn [kube.trace kube.world]; unfold constant; rewrite ?count_app.
  all: cbn.
  all: repeat apply conj; try lia.
  all: intros e' c' Hd; inversion Hd; subst; (split; [reflexivity | lia]).
Qed.

Lemma retryLoop_stop (fuel attempt : nat) (err : option error) (cr : CHK)
  (opts : types.UpdateStatusOptions) :
  kube.retryLoop fuel false attempt err cr opts = kube.ret (Some (err, cr)).
Proof. destruct fuel; reflexivity. Qed.

(** The loop entered at [attempt] with [retry] set, and with fuel for the
    turns that are left up to the 61st. *)
Lemma retryLoop_counts (opts : types.UpdateStatusOptions) (fuel : nat) :
  forall (attempt : nat) (err : option error) (chk : CHK) (st st' : state)
         (r : kube.result (option (option error * CHK))),
    (1 <= attempt <= 61)%nat -> (62 - attempt <= fuel)%nat ->
    kube.retryLoop fuel true attempt err chk opts st = (r, st') ->
    r <> kube.Done None /\
    (kube.count kube.isSleep (kube.trace st') + attempt
     <= kube.count kube.isSleep (kube.trace st) + 61)%nat /\
    (kube.count kube.isAttempt (kube.trace st') + attempt
     <= kube.count kube.isAttempt (kube.trace st) + 62)%nat /\
    (kube.count kube.isUpdate (kube.trace st') + attempt
     <= kube.count kube.isUpdate (kube.trace st) + 62)%nat /\
    forall e c, r = kube.Done (Some (Some e, c)) ->
      c = chk /\
      (kube.count kube.isSleep (kube.trace st') + attempt
       = kube.count kube.isSleep (kube.trace st) + 61)%nat /\
      (kube.count kube.isAttempt (kube.trace st') + attempt
       = kube.count kube.isAttempt (kube.trace st) + 62)%nat /\
      exists tr,
        kube.trace st' =
          tr ++ [kube.EvError "got error, all retries are exhausted" e].
Proof.
  induction fuel as [|fuel IH]; intros attempt err chk st st' r Ha Hf Hrun.
  - lia.
  - cbn [kube.retryLoop] in Hrun. unfold kube.bind at 1 in Hrun.
    destruct (kube.doUpdateCRStatus chk opts st) as [r0 st0] eqn:E0.
    apply doUpdateCRStatus_counts in E0.
    destruct E0 as [C1 [C2 [C3 [_ C5]]]].
    destruct r0 as [[[e|] c0] | msg].
    + destruct (C5 e c0 eq_refl) as [-> C6].
      destruct (60 <? attempt)%nat eqn:E60.
      * apply Nat.ltb_lt in E60.
        unfold kube.bind, kube.emit in Hrun. rewrite retryLoop_stop in Hrun.
        unfold kube.ret in Hrun. inversion Hrun; subst; clear Hrun.
        cbn -[kube.count]. unfold constant. rewrite !count_app. cbn.
        repeat apply conj; try lia; try discriminate.
        intros e' c' Hd. inversion Hd; subst.
        repeat apply conj; try lia; try reflexivity.
        eexists. reflexivity.
      * apply Nat.ltb_ge in E60.
        unfold kube.bind at 1 2, kube.emit, kube.sleep in Hrun.
        apply IH in Hrun; [| lia | lia].
        cbn -[kube.count] in Hrun. unfold constant in Hrun.
        rewrite !count_app in Hrun. cbn in Hrun.
        destruct Hrun as [R1 [R2 [R3 [R4 R5]]]].
        repeat apply conj; try lia; try exact R1.
        intros e' c' Hd. destruct (R5 e' c' Hd) as [-> [S1 [S2 S3]]].
        repeat apply conj; try lia; try reflexivity. exact S3.
    + unfold kube.ret in Hrun. inversion Hrun; subst; clear Hrun.
      repeat apply conj; try lia; try discriminate.
    + inversion Hrun; subst; clear Hrun.
      repeat apply conj; try lia; try discriminate.
Qed.

(** The last turn of the loop: an attempt that fails at [attempt] 61 is not
    retried, its error is logged and returned. *)
Lemma retryLoop_last_attempt (opts : types.UpdateStatusOptions) (fuel : nat)
  (err : option error) (chk c : CHK) (e : error) (st st0 : state) :
  kube.doUpdateCRStatus chk opts st = (kube.Done (Some e, c), st0) ->
  kube.retryLoop (S fuel) true 61 err chk opts st
  = (kube.Done (Some (Some e, c)),
     st0 <| kube.trace :=
              kube.trace st0
              ++ [kube.EvError "got error, all retries are exhausted" e] |>).
Proof.
  intro H. cbn [kube.retryLoop]. unfold kube.bind at 1. rewrite H.
  cbn [Nat.ltb Nat.leb]. unfold kube.bind, kube.emit.
  now rewrite retryLoop_stop.
Qed.

(** More fuel than a run needs does not change it. *)
Lemma retryLoop_more_fuel (opts : types.UpdateStatusOptions) (fuel : nat) :
  forall (fuel' : nat) (retry : bool) (attempt : nat) (err : option error)
         (chk : CHK) (st st' : state)
         (r : kube.result (option (option error * CHK))),
    (fuel <= fuel')%nat ->
    kube.retryLoop fuel retry attempt err chk opts st = (r, st') ->
    r <> kube.Done None ->
    kube.retryLoop fuel' retry attempt err chk opts st = (r, st').
Proof.
  induction fuel as [|fuel IH];
    intros fuel' retry attempt err chk st st' r Hle Hrun Hr;
    destruct retry; try (rewrite retryLoop_stop in *; exact Hrun).
  - cbn in Hrun. inversion Hrun; subst. now elim Hr.
  - destruct fuel' as [|fuel']; [lia |].
    cbn [kube.retryLoop] in *. unfold kube.bind at 1 in Hrun.
    unfold kube.bind at 1.
    destruct (kube.doUpdateCRStatus chk opts st) as [[[[e|] c] | msg] st0];
      try exact Hrun.
    unfold kube.bind at 1 in Hrun. unfold kube.bind at 1.
    match goal with
    | |- context [?emit_and_sleep st0] =>
        match emit_and_sleep with
        | (if _ then _ else _) =>
            destruct (emit_and_sleep st0) as [[[] | msg] st1]; try exact Hrun
        end
    end.
    apply IH; [lia | exact Hrun | exact Hr].
Qed.

(** 61 units of fuel are enough: with more, [StatusUpdateFuel] is
    [StatusUpdate]. *)
Lemma StatusUpdateFuel_enough (chk : CHK) (opts : types.UpdateStatusOptions)
  (st : state) (fuel : nat) :
  (61 <= fuel)%nat ->
  kube.StatusUpdateFuel fuel chk opts st = kube.StatusUpdate chk opts st.
Proof.
  intro Hf. unfold kube.StatusUpdate, kube.StatusUpdateFuel.
  unfold kube.bind at 1 3. destruct (kube.isContextDone st) as [[[|] | msg] st0];
    try reflexivity.
  destruct (kube.retryLoop 61 true 1 None chk opts st0) as [r st'] eqn:E.
  apply retryLoop_more_fuel with (fuel := 61%nat); [exact Hf | exact E |].
  apply retryLoop_counts in E; [apply E | lia | lia].
Qed.

(** C2, as amended. Started with nothing recorded, [StatusUpdate] comes to
    an end within the 61 turns of its loop: the get-merge-update step is
    attempted at most 61 times, the first try and at most 60 retries, the
    store is written to at most 61 times, and the one-second sleep is taken
    at most 60 times, once after each failed attempt that is retried. When
    the call returns an error, all 61 attempts were made and failed, 60
    sleeps were taken, and the error is that of the last attempt, the one
    logged last as having exhausted the retries; and an error of the 61st
    attempt is what the loop returns. *)
Theorem StatusUpdate_at_most_61_attempts
  (chk : CHK) (opts : types.UpdateStatusOptions) (w : World) :
  let run := kube.StatusUpdate chk opts (kube.start w) in
  fst run <> kube.Done None /\
  (kube.count kube.isAttempt (kube.trace (snd run)) <= 61)%nat /\
  (kube.count kube.isUpdate (kube.trace (snd run)) <= 61)%nat /\
  (kube.count kube.isSleep (kube.trace (snd run)) <= 60)%nat /\
  (forall e c, fst run = kube.Done (Some (Some e, c)) ->
     c = chk /\
     kube.count kube.isAttempt (kube.trace (snd run)) = 61%nat /\
     kube.count kube.isSleep (kube.trace (snd run)) = 60%nat /\
     exists tr,
       kube.trace (snd run) =
         tr ++ [kube.EvError "got error, all retries are exhausted" e]) /\
  (forall fuel err st st0 e c,
     kube.doUpdateCRStatus chk opts st = (kube.Done (Some e, c), st0) ->
     fst (kube.retryLoop (S fuel) true 61 err chk opts st)
     = kube.Done (Some (Some e, c))).
Proof.
  intro run. subst run.
  destruct (kube.StatusUpdate chk opts (kube.start w)) as [r st'] eqn:E.
  cbn [fst snd].
  assert (Hlast : forall fuel err st st0 e c,
             kube.doUpdateCRStatus chk opts st = (kube.Done (Some e, c), st0) ->
             fst (kube.retryLoop (S fuel) true 61 err chk opts st)
             = kube.Done (Some (Some e, c))).
  { intros fuel err st st0 e c H.
    now rewrite (retryLoop_last_attempt opts fuel err chk c e st st0 H). }
  unfold kube.StatusUpdate, kube.StatusUpdateFuel, kube.bind at 1,
    kube.isContextDone in E.
  cbn [kube.start kube.world] in E.
  destruct (kube.IsContextDone w).
  - unfold kube.bind, kube.emit, kube.ret in E. cbn in E.
    inversion E; subst; clear E. cbn.
    repeat apply conj; try lia; try discriminate. exact Hlast.
  - apply retryLoop_counts in E; [| lia | lia].
    cbn in E.
    destruct E as [R1 [R2 [R3 [R4 R5]]]].
    repeat apply conj; try lia; try exact R1; try exact Hlast.
    intros e c Hd. destruct (R5 e c Hd) as [-> [S1 [S2 S3]]].
    repeat apply conj; try lia; try reflexivity. exact S3.
Qed.

(** C8. When the context is done as [StatusUpdate] is entered, the call
    returns success at once, having only logged that the task is done: the
    world is as it was and no call to the store is recorded. The same holds
    at the start of any turn of the retry loop. *)
Theorem StatusUpdate_cancelled_returns_success
  (chk : CHK) (opts : types.UpdateStatusOptions) (st : state)
  (Hdone : kube.IsContextDone (kube.world st) = true) :
  let st' := st <| kube.trace := kube.trace st ++ [kube.EvInfo "task is done"] |> in
  kube.StatusUpdate chk opts st = (kube.Done (Some (None, chk)), st') /\
  (forall fuel attempt err,
     kube.retryLoop (S fuel) true attempt err chk opts st
     = (kube.Done (Some (None, chk)), st')) /\
  kube.world st' = kube.world st /\
  kube.count kube.isStoreCall (kube.trace st')
  = kube.count kube.isStoreCall (kube.trace st).
Proof.
  intro st'. subst st'. repeat apply conj.
  - unfold kube.StatusUpdate, kube.StatusUpdateFuel, kube.bind,
      kube.isContextDone. now rewrite Hdone.
  - intros fuel attempt err. cbn [kube.retryLoop].
    unfold kube.doUpdateCRStatus, kube.bind, kube.isContextDone.
    now rewrite Hdone.
  - destruct st; reflexivity.
  - cbn -[kube.count]. unfold constant. rewrite count_app. cbn. lia.
Qed.

(** C1, what the code does. When the context is not done and the fetch
    from the store fails, the attempt panics on the type assertion that
    precedes the test of the error, whatever the tolerance of absence: it
    neither succeeds silently nor returns the error, and [StatusUpdate]
    panics with it. *)
Theorem fetch_failure_panics
  (chk : CHK) (opts : types.UpdateStatusOptions) (st : state)
  (cm : CHK) (e : error) (w' : World)
  (Hctx : kube.IsContextDone (kube.world st) = false)
  (Hget : kube.kubeClientGet (kube.Namespace chk) (kube.Name chk) (kube.world st)
          = (cm, Some e, w')) :
  exists st',
    kube.doUpdateCRStatus chk opts st
    = (kube.Panic "interface conversion: interface is nil", st') /\
    kube.StatusUpdate chk opts st
    = (kube.Panic "interface conversion: interface is nil", st').
Proof.
  destruct st as [w tr]. cbn [kube.world] in Hctx, Hget.
  assert (Hrun : exists st',
             kube.doUpdateCRStatus chk opts {| kube.world := w; kube.trace := tr |}
             = (kube.Panic "interface conversion: interface is nil", st')).
  { eexists.
    unfold kube.doUpdateCRStatus, kube.Get, kube.assertCHK, kube.bind,
      kube.isContextDone, kube.clientGet, kube.emit, kube.NamespaceName.
    cbn -[kube.EnsureStatus CopyFrom String.eqb].
    rewrite Hctx, Hget. reflexivity. }
  destruct Hrun as [st' Hrun]. exists st'. split; [exact Hrun |].
  unfold kube.StatusUpdate, kube.StatusUpdateFuel, kube.bind at 1,
    kube.isContextDone.
  cbn [kube.world]. rewrite Hctx.
  cbn [kube.retryLoop]. unfold kube.bind at 1. now rewrite Hrun.
Qed.

End UpdaterFacts.

(** ** Runs against the scripted store *)

Import scripted.

(** C2, what fails: against a store that refuses 60 writes the call does
    not give up after 60 attempts. It makes a 61st, writes a 61st time and
    returns success. *)
Lemma StatusUpdate_makes_a_61st_attempt :
  kube.count kube.isAttempt (kube.trace (snd run60)) = 61%nat /\
  kube.count kube.isUpdate (kube.trace (snd run60)) = 61%nat /\
  kube.count kube.isSleep (kube.trace (snd run60)) = 60%nat /\
  fst run60 = kube.Done (Some (None, chk0 <| kube.ResourceVersion := "1'" |>)) /\
  ~ (kube.count kube.isAttempt (kube.trace (snd run60)) <= 60)%nat.
Proof.
  assert (E : kube.count kube.isAttempt (kube.trace (snd run60)) = 61%nat)
    by (vm_compute; reflexivity).
  repeat apply conj; try (vm_compute; reflexivity).
  rewrite E. lia.
Qed.

(** The bound of C2 against a store that refuses every write: the error of
    the 61st attempt comes back. *)
Lemma StatusUpdate_at_most_61_attempts_witness :
  let run := kube.StatusUpdate chk0 (opts0 false) (kube.start (conflicts 61)) in
  fst run = kube.Done (Some (Some "conflict", chk0)) /\
  kube.count kube.isAttempt (kube.trace (snd run)) = 61%nat /\
  kube.count kube.isSleep (kube.trace (snd run)) = 60%nat /\
  exists tr,
    kube.trace (snd run) =
      tr ++ [kube.EvError "got error, all retries are exhausted" "conflict"].
Proof.
  cbv zeta.
  assert (E : fst (kube.StatusUpdate chk0 (opts0 false) (kube.start (conflicts 61)))
              = kube.Done (Some (Some "conflict", chk0)))
    by (vm_compute; reflexivity).
  split; [exact E |].
  destruct (StatusUpdate_at_most_61_attempts chk0 (opts0 false) (conflicts 61))
    as [_ [_ [_ [_ [H _]]]]].
  destruct (H "conflict" chk0 E) as [_ H']. exact H'.
Defined.

(** C8 on a caller whose context is done. *)
Lemma StatusUpdate_cancelled_returns_success_witness :
  @kube.IsContextDone _ _ _ client cancelled = true /\
  kube.StatusUpdate chk0 (opts0 false) (kube.start cancelled)
  = (kube.Done (Some (None, chk0)),
     (kube.start cancelled) <| kube.trace := [kube.EvInfo "task is done"] |>).
Proof.
  split; [reflexivity |].
  exact (proj1 (StatusUpdate_cancelled_returns_success
                  chk0 (opts0 false) (kube.start cancelled) eq_refl)).
Defined.

(** C1 on a store whose fetch fails, absence tolerated. *)
Lemma fetch_failure_panics_witness :
  @kube.IsContextDone _ _ _ client unreachable = false /\
  exists st',
    kube.doUpdateCRStatus chk0 (opts0 true) (kube.start unreachable)
    = (kube.Panic "interface conversion: interface is nil", st') /\
    kube.StatusUpdate chk0 (opts0 true) (kube.start unreachable)
    = (kube.Panic "interface conversion: interface is nil", st').
Proof.
  split; [reflexivity |].
  exact (fetch_failure_panics chk0 (opts0 true) (kube.start unreachable)
           emptyCHK "timeout" world0 eq_refl eq_refl).
Defined.

(** The same fetch failure with absence not tolerated: the error
    "timeout" is not returned either. *)
Example fetch_failure_not_reported :
  fst (kube.StatusUpdate chk0 (opts0 false) (kube.start unreachable))
  = kube.Panic "interface conversion: interface is nil".
Proof. vm_compute. reflexivity. Qed.

(** Scenario of the specification: the store refuses the writes of
    attempts 1 to 3 and accepts that of attempt 4; the call returns success
    having slept 3 times. *)
Example StatusUpdate_succeeds_on_4th_attempt :
  let run := kube.StatusUpdate chk0 (opts0 false) (kube.start (conflicts 3)) in
  fst run = kube.Done (Some (None, chk0 <| kube.ResourceVersion := "1'" |>)) /\
  kube.count kube.isSleep (kube.trace (snd run)) = 3%nat /\
  kube.count kube.isUpdate (kube.trace (snd run)) = 4%nat.
Proof. vm_compute. repeat split. Qed.

(** Scenario of the specification: a history below the cap takes the new
    action at its head and drops nothing. *)
Example PushAction_below_cap :
  GetActions
    (PushAction (Some (statusA <| Actions := Some ["a3"; "a2"; "a1"] |>)) "a4")
  = Some ["a4"; "a3"; "a2"; "a1"].
Proof. reflexivity. Qed.

(** The histories that [CopyFrom] leaves on [statusA] from [statusB]. *)
Example CopyFrom_Actions_example :
  GetActions (CopyFrom (Some statusA) (Some statusB) onlyActions)
  = Some ["a3"; "a2"; "a1"].
Proof. vm_compute. reflexivity. Qed.

Example CopyFrom_Errors_example :
  GetErrors (CopyFrom (Some statusA) (Some statusB) onlyErrors)
  = Some ["e2"; "e1"].
Proof. vm_compute. reflexivity. Qed.

(** * More of [Status] *)

Section StatusSequenceFacts.

Context {CHI TRef : Type}.

Variables version_Version version_GitSHA version_BuiltAt : string.

Local Abbreviation Status := (Status CHI TRef).
Local Abbreviation apply1 :=
  (mutate (CHI := CHI) (TRef := TRef) version_Version version_GitSHA version_BuiltAt).
Local Abbreviation applyAll :=
  (mutateAll (CHI := CHI) (TRef := TRef) version_Version version_GitSHA version_BuiltAt).

Lemma PushError_Some (s : Status) (e : string) :
  exists s', PushError (Some s) e = Some s' /\
             elems (Errors s') = firstn maxErrors (e :: elems (Errors s)).
Proof.
  eexists. split; [reflexivity |]. cbn -[pushCapped]. apply elems_pushCapped.
Qed.

Lemma PushErrors_Some (errors : list string) :
  forall (s : Status) (l : list string),
    elems (Errors s) = firstn maxErrors l ->
    exists s', PushErrors (Some s) errors = Some s' /\
               elems (Errors s') = firstn maxErrors (rev errors ++ l).
Proof.
  induction errors as [|e errors IH]; intros s l Hs.
  - exists s. now split.
  - destruct (PushError_Some s e) as [s1 [E1 H1]].
    destruct (IH s1 (e :: l)) as [s' [E' H']].
    { rewrite H1, Hs. apply firstn_cons_firstn. }
    exists s'. split.
    + unfold PushErrors in *. cbn [fold_left]. now rewrite E1.
    + rewrite H'. cbn [rev]. now rewrite <- app_assoc.
Qed.

Lemma PushErrors_frame (errors : list string) :
  forall s s' : Status,
    PushErrors (Some s) errors = Some s' -> s' <| Errors := Errors s |> = s.
Proof.
  induction errors as [|e errors IH]; intros s s' E.
  - cbn in E. inversion E; subst. destruct s'; reflexivity.
  - unfold PushErrors in *. cbn [fold_left] in E.
    destruct (PushError_Some s e) as [s1 [E1 _]]. rewrite E1 in E.
    apply IH in E. inversion E1; subst s1; clear E1.
    destruct s, s'. cbn in E. unfold constant in E. inversion E; subst.
    reflexivity.
Qed.

(** The error history under [PushError]: after a sequence of calls that
    has at least one, it holds the pushed errors newest first, then what it
    held before, cut to 10; the action history is not touched. *)
Theorem PushError_sequence_newest_first_capped
  (s : Status) (e : string) (errors : list string) :
  exists s',
    PushErrors (Some s) (e :: errors) = Some s' /\
    elems (GetErrors (Some s')) =
      firstn 10 (rev (e :: errors) ++ elems (Errors s)) /\
    (len (GetErrors (Some s')) <= 10)%nat /\
    s' <| Errors := Errors s |> = s.
Proof.
  destruct (PushError_Some s e) as [s1 [E1 H1]].
  destruct (PushErrors_Some errors s1 (e :: elems (Errors s)) H1)
    as [s' [E' H']].
  exists s'. repeat apply conj.
  - unfold PushErrors in *. cbn [fold_left]. now rewrite E1.
  - cbn [GetErrors getStringArrWithReadLock]. rewrite H'.
    cbn [rev]. now rewrite <- app_assoc.
  - unfold len. cbn [GetErrors getStringArrWithReadLock].
    rewrite H'. apply firstn_le_length.
  - apply (PushErrors_frame (e :: errors)).
    unfold PushErrors in *. cbn [fold_left]. now rewrite E1.
Qed.

(** [SetAndPushError] is [SetError] followed by [PushError]: the error is
    the current one and the head of the history. *)
Theorem SetAndPushError_is_SetError_then_PushError
  (s : option Status) (s0 : Status) (err : string) :
  SetAndPushError s err = PushError (SetError s err) err /\
  GetError (SetAndPushError (Some s0) err) = err /\
  hd_error (elems (GetErrors (SetAndPushError (Some s0) err))) = Some err.
Proof.
  repeat apply conj.
  - destruct s as [s|]; [| reflexivity]. destruct s; reflexivity.
  - reflexivity.
  - cbn -[pushCapped]. unfold constant. now rewrite elems_pushCapped.
Qed.

Lemma len_pushCapped (n : nat) (x : string) (s : slice string) :
  (len (pushCapped n x s) <= n)%nat.
Proof. unfold len. rewrite elems_pushCapped. apply firstn_le_length. Qed.

Lemma len_trimActionsNoSync (s : Status) :
  (len (Actions (trimActionsNoSync s)) <= maxActions)%nat.
Proof. unfold len. rewrite elems_trimActionsNoSync. apply firstn_le_length. Qed.

Lemma trimActionsNoSync_others (s : Status) :
  Errors (trimActionsNoSync s) = Errors s /\
  TaskIDsStarted (trimActionsNoSync s) = TaskIDsStarted s /\
  TaskIDsCompleted (trimActionsNoSync s) = TaskIDsCompleted s.
Proof.
  unfold trimActionsNoSync.
  destruct (maxActions <? len (Actions s))%nat; repeat split.
Qed.

Lemma mutate_capped (m : mutation CHI TRef) (s : Status) :
  capped s -> exists s', apply1 (Some s) m = Some s' /\ capped s'.
Proof.
  intros [H1 [H2 [H3 H4]]].
  destruct m; (eexists; split; [reflexivity |]); unfold capped.
  all: try (destruct s; repeat apply conj; cbn -[pushCapped];
            unfold constant; first [assumption | apply len_pushCapped]).
  - destruct (util.InArray host (HostsWithTablesCreated s));
      destruct s; repeat apply conj; assumption.
  - destruct (FQDNs s); destruct s; repeat apply conj; assumption.
  - destruct (trimActionsNoSync_others
                (s <| Actions := append (Some [action]) (elems (Actions s)) |>))
      as [T2 [T3 T4]].
    rewrite T2, T3, T4. repeat apply conj.
    + apply len_trimActionsNoSync.
    + destruct s; assumption.
    + destruct s; assumption.
    + destruct s; assumption.
Qed.

(** The caps are an invariant of the mutators other than [CopyFrom]: on a
    [Status] whose four histories are within their caps, any sequence of
    calls leaves them within their caps. *)
Theorem histories_stay_capped (s : Status) (ms : list (mutation CHI TRef))
  (Hs : capped s) :
  exists s', applyAll (Some s) ms = Some s' /\ capped s'.
Proof.
  revert s Hs. induction ms as [|m ms IH]; intros s Hs.
  - exists s. now split.
  - destruct (mutate_capped m s Hs) as [s1 [E1 H1]].
    destruct (IH s1 H1) as [s' [E' H']].
    exists s'. split; [| exact H'].
    unfold mutateAll in *. cbn [fold_left]. now rewrite E1.
Qed.

Lemma incr_room (n : Z) (x : int) :
  (0 < n)%Z -> roomFor n x -> incr x = (x + 1)%Z /\ roomFor (n - 1) (x + 1)%Z.
Proof.
  unfold roomFor, incr, wrap64. intros Hn [H1 H2]. split; [| lia].
  rewrite Z.mod_small; lia.
Qed.

Lemma roomFor_less (n : Z) (x : int) :
  (0 < n)%Z -> roomFor n x -> roomFor (n - 1) x.
Proof. unfold roomFor. lia. Qed.

(** The host counters count: a sequence of [HostDeleted], [HostUpdated],
    [HostAdded], [HostUnchanged], [HostFailed] and [HostCompleted] calls, in
    any order, adds to each counter the number of its calls, as long as no
    counter can wrap around, and changes nothing else. *)
Theorem host_counters_count_their_calls
  (ms : list (mutation CHI TRef)) (s : Status)
  (Hms : forallb isHostCount ms = true)
  (Hdeleted : roomFor (Z.of_nat (List.length ms)) (HostsDeletedCount s))
  (Hupdated : roomFor (Z.of_nat (List.length ms)) (HostsUpdatedCount s))
  (Hadded : roomFor (Z.of_nat (List.length ms)) (HostsAddedCount s))
  (Hunchanged : roomFor (Z.of_nat (List.length ms)) (HostsUnchangedCount s))
  (Hfailed : roomFor (Z.of_nat (List.length ms)) (HostsFailedCount s))
  (Hcompleted : roomFor (Z.of_nat (List.length ms)) (HostsCompletedCount s)) :
  exists s',
    applyAll (Some s) ms = Some s' /\
    HostsDeletedCount s' = (HostsDeletedCount s + calls isHostDeleted ms)%Z /\
    HostsUpdatedCount s' = (HostsUpdatedCount s + calls isHostUpdated ms)%Z /\
    HostsAddedCount s' = (HostsAddedCount s + calls isHostAdded ms)%Z /\
    HostsUnchangedCount s' = (HostsUnchangedCount s + calls isHostUnchanged ms)%Z /\
    HostsFailedCount s' = (HostsFailedCount s + calls isHostFailed ms)%Z /\
    HostsCompletedCount s' = (HostsCompletedCount s + calls isHostCompleted ms)%Z /\
    s' <| HostsDeletedCount := HostsDeletedCount s |>
       <| HostsUpdatedCount := HostsUpdatedCount s |>
       <| HostsAddedCount := HostsAddedCount s |>
       <| HostsUnchangedCount := HostsUnchangedCount s |>
       <| HostsFailedCount := HostsFailedCount s |>
       <| HostsCompletedCount := HostsCompletedCount s |> = s.
Proof.
  revert s Hms Hdeleted Hupdated Hadded Hunchanged Hfailed Hcompleted.
  induction ms as [|m ms IH];
    intros s Hms Hdeleted Hupdated Hadded Hunchanged Hfailed Hcompleted.
  - exists s. unfold calls. cbn. rewrite !Z.add_0_r.
    repeat apply conj; try reflexivity. destruct s; reflexivity.
  - cbn [forallb] in Hms. apply andb_prop in Hms. destruct Hms as [Hm Hms].
    assert (Hn : (0 < Z.of_nat (List.length (m :: ms)))%Z) by (cbn; lia).
    replace (Z.of_nat (List.length ms))
      with (Z.of_nat (List.length (m :: ms)) - 1)%Z in IH
      by (cbn [List.length]; lia).
    pose proof (roomFor_less _ _ Hn Hdeleted) as Ld.
    pose proof (roomFor_less _ _ Hn Hupdated) as Lu.
    pose proof (roomFor_less _ _ Hn Hadded) as La.
    pose proof (roomFor_less _ _ Hn Hunchanged) as Ln.
    pose proof (roomFor_less _ _ Hn Hfailed) as Lf.
    pose proof (roomFor_less _ _ Hn Hcompleted) as Lc.
    destruct (incr_room _ _ Hn Hdeleted) as [Id Rd].
    destruct (incr_room _ _ Hn Hupdated) as [Iu Ru].
    destruct (incr_room _ _ Hn Hadded) as [Ia Ra].
    destruct (incr_room _ _ Hn Hunchanged) as [In' Rn].
    destruct (incr_room _ _ Hn Hfailed) as [If' Rf].
    destruct (incr_room _ _ Hn Hcompleted) as [Ic Rc].
    unfold mutateAll in *. cbn [fold_left].
    destruct m; try discriminate Hm; cbn [mutate].
    all: match goal with
         | |- context [fold_left _ _ (?f (Some ?s0))] =>
             let s1 := fresh "s1" in
             let E1 := fresh "E1" in
             destruct (f (Some s0)) as [s1|] eqn:E1; [| discriminate E1];
             revert E1;
             cbv [HostDeleted HostUpdated HostAdded HostUnchanged HostFailed
                  HostCompleted doWithWriteLock];
             rewrite ?Id, ?Iu, ?Ia, ?In', ?If', ?Ic;
             intro E1; inversion E1; subst s1; clear E1
         end.
    all: match goal with
         | |- context [fold_left _ _ (Some ?s1)] =>
             destruct (IH s1 Hms) as [s' [E' [Cd [Cu [Ca [Cn [Cf [Cc Fr]]]]]]]];
             try (destruct s; assumption)
         end.
    all: exists s'; split; [exact E' |].
    all: unfold calls in *; cbn [filter isHostDeleted isHostUpdated isHostAdded
                                  isHostUnchanged isHostFailed isHostCompleted
                                  List.length].
    all: destruct s, s'; cbn in Cd, Cu, Ca, Cn, Cf, Cc, Fr |- *;
         unfold constant in *; inversion Fr; subst; clear Fr.
    all: repeat apply conj; try reflexivity; lia.
Qed.

(** [DeleteStart] is [ReconcileStart] with nothing to delete, but for the
    phase: it zeroes the same counters, leaves the failed counter alone and
    pushes the task id onto the started history. *)
Theorem DeleteStart_is_ReconcileStart_0_Terminating (s : option Status) :
  DeleteStart s =
    option_map (fun r => r <| Status_ := StatusTerminating |>)
               (ReconcileStart s 0%Z) /\
  GetHostsFailedCount (DeleteStart s) = GetHostsFailedCount s /\
  GetHostsDeleteCount (DeleteStart s) = 0%Z /\
  GetTaskID (DeleteStart s) = GetTaskID s.
Proof.
  destruct s as [s|]; repeat split.
Qed.

(** The last [Fill] wins, and [Fill] never touches the replica count, the
    phase, the histories, the action, the error, the failed counter, the
    pod IPs, the completed snapshot, the table-created list and the template
    list. *)
Theorem Fill_last_wins_and_frame
  (s : option Status) (s0 : Status) (p q : FillStatusParams.t CHI) :
  let fill := Fill version_Version version_GitSHA version_BuiltAt in
  fill (fill s p) q = fill s q /\
  exists r,
    fill (Some s0) q = Some r /\
    ReplicasCount r = ReplicasCount s0 /\ Status_ r = Status_ s0 /\
    TaskIDsStarted r = TaskIDsStarted s0 /\
    TaskIDsCompleted r = TaskIDsCompleted s0 /\
    Action r = Action s0 /\ Actions r = Actions s0 /\
    Error r = Error s0 /\ Errors r = Errors s0 /\
    HostsFailedCount r = HostsFailedCount s0 /\
    PodIPs r = PodIPs s0 /\
    NormalizedCRCompleted r = NormalizedCRCompleted s0 /\
    HostsWithTablesCreated r = HostsWithTablesCreated s0 /\
    UsedTemplates r = UsedTemplates s0.
Proof.
  cbv zeta. split.
  - destruct s as [s|]; [| reflexivity]. destruct s; reflexivity.
  - eexists. split; [reflexivity |]. repeat split.
Qed.

(** [PushUsedTemplate] appends and never cuts: a sequence of calls leaves
    the old templates followed by the pushed ones, oldest first, and the
    count grows by the number of calls. *)
Theorem PushUsedTemplate_appends_without_cap
  (s : Status) (templates : list TRef) :
  exists s',
    PushUsedTemplates (Some s) templates = Some s' /\
    elems (UsedTemplates s') = elems (UsedTemplates s) ++ templates /\
    GetUsedTemplatesCount (Some s') =
      (GetUsedTemplatesCount (Some s) + Z.of_nat (List.length templates))%Z.
Proof.
  assert (H : exists s',
             PushUsedTemplates (Some s) templates = Some s' /\
             elems (UsedTemplates s') = elems (UsedTemplates s) ++ templates).
  { revert s. induction templates as [|t ts IH]; intro s.
    - exists s. split; [reflexivity | now rewrite app_nil_r].
    - destruct (IH (s <| UsedTemplates := append (UsedTemplates s) [t] |>))
        as [s' [E' H']].
      exists s'. split; [exact E' |].
      rewrite H'. cbn -[append]. unfold constant.
      replace (elems (append (UsedTemplates s) [t]))
        with (elems (UsedTemplates s) ++ [t])
        by (destruct (UsedTemplates s); reflexivity).
      now rewrite <- app_assoc. }
  destruct H as [s' [E' H']]. exists s'. repeat apply conj; trivial.
  cbn [GetUsedTemplatesCount getIntWithReadLock]. unfold len.
  rewrite H', length_app. lia.
Qed.

(** The two snapshots: [SetNormalizedCompletedFromCurrentNormalized] makes
    the completed snapshot the current one (the same reference), and a
    [ClearNormalizedCR] after it drops the current one only. *)
Theorem completed_snapshot_survives_clear (s : option Status) :
  GetNormalizedCRCompleted (SetNormalizedCompletedFromCurrentNormalized s)
  = GetNormalizedCR s /\
  GetNormalizedCRCompleted
    (ClearNormalizedCR (SetNormalizedCompletedFromCurrentNormalized s))
  = GetNormalizedCR s /\
  HasNormalizedCR
    (ClearNormalizedCR (SetNormalizedCompletedFromCurrentNormalized s))
  = false /\
  HasNormalizedCRCompleted (SetNormalizedCompletedFromCurrentNormalized s)
  = HasNormalizedCR s.
Proof. destruct s as [s|]; repeat split. Qed.

End StatusSequenceFacts.

(** ** More of [CopyFrom] *)

Section CopyFromMoreFacts.

Context {CHI TRef : Type}.

Local Abbreviation Status := (Status CHI TRef).

Lemma copyActions_HostsFailedCount (from s : Status) :
  HostsFailedCount (copyActions from s) = HostsFailedCount s.
Proof.
  unfold copyActions. rewrite mergeActionsNoSync_eq.
  destruct (0 <? len (HostsWithTablesCreated from))%nat;
    destruct (0 <? len (UsedTemplates from))%nat; reflexivity.
Qed.

Lemma copyMainFields_HostsFailedCount (from s : Status) :
  HostsFailedCount (copyMainFields from s) = HostsFailedCount s.
Proof. unfold copyMainFields. rewrite mergeActionsNoSync_eq. reflexivity. Qed.

Lemma when_keeps_HostsFailedCount (b : bool) (f : Status -> Status)
  (s : Status) :
  (forall x, HostsFailedCount (f x) = HostsFailedCount x) ->
  HostsFailedCount (when b f s) = HostsFailedCount s.
Proof. intro H. destruct b; [apply H | reflexivity]. Qed.

(** No switch of [CopyFrom] copies the failed-hosts counter: whatever the
    switches, and also on nil aggregates, the receiver keeps its own. *)
Theorem CopyFrom_never_copies_HostsFailedCount
  (s f : option Status) (opts : types.CopyStatusOptions) :
  GetHostsFailedCount (CopyFrom s f opts) = GetHostsFailedCount s.
Proof.
  destruct s as [s|]; [| reflexivity].
  destruct f as [from|]; [| reflexivity].
  unfold CopyFrom, doWithWriteLock, doWithReadLock, GetHostsFailedCount,
    getIntWithReadLock.
  cbv zeta.
  rewrite (when_keeps_HostsFailedCount _ (copyWholeStatus from))
    by (intro x; apply (copyMainFields_HostsFailedCount from x)).
  rewrite (when_keeps_HostsFailedCount _ (copyNormalized from))
    by reflexivity.
  rewrite (when_keeps_HostsFailedCount _ (copyMainFields from))
    by apply copyMainFields_HostsFailedCount.
  rewrite (when_keeps_HostsFailedCount _ (copyErrors from)) by reflexivity.
  rewrite (when_keeps_HostsFailedCount _ (copyActions from))
    by apply copyActions_HostsFailedCount.
  now rewrite (when_keeps_HostsFailedCount _ (copyInheritableFields from))
    by reflexivity.
Qed.

(** Where [WholeStatus] is set, whatever the other switches, the receiver
    ends up with the source's value in every field but four: the action
    history, which is merged, and the failed counter, the table-created
    list and the template list, which that switch does not copy. *)
Theorem CopyFrom_WholeStatus_copies_all_but_four
  (s from : Status) (opts : types.CopyStatusOptions)
  (H : types.WholeStatus opts = true) :
  exists r,
    CopyFrom (Some s) (Some from) opts = Some r /\
    r <| Actions := Actions from |>
      <| HostsFailedCount := HostsFailedCount from |>
      <| HostsWithTablesCreated := HostsWithTablesCreated from |>
      <| UsedTemplates := UsedTemplates from |> = from.
Proof.
  eexists. split; [reflexivity |].
  unfold doWithReadLock. cbv zeta. rewrite H. unfold when at 1.
  unfold copyWholeStatus, copyMainFields. rewrite mergeActionsNoSync_eq.
  destruct from. reflexivity.
Qed.

(** With only [InheritableFields] set, the two task-id histories, the
    action and error histories and the table-created list become the
    source's, as they are and whatever their length, and nothing else
    changes. *)
Theorem CopyFrom_onlyInheritableFields_replaces (s from : Status) :
  exists r,
    CopyFrom (Some s) (Some from) onlyInheritableFields = Some r /\
    TaskIDsStarted r = TaskIDsStarted from /\
    TaskIDsCompleted r = TaskIDsCompleted from /\
    Actions r = Actions from /\
    Errors r = Errors from /\
    HostsWithTablesCreated r = HostsWithTablesCreated from /\
    r <| TaskIDsStarted := TaskIDsStarted s |>
      <| TaskIDsCompleted := TaskIDsCompleted s |>
      <| Actions := Actions s |>
      <| Errors := Errors s |>
      <| HostsWithTablesCreated := HostsWithTablesCreated s |> = s.
Proof.
  eexists. split; [reflexivity |]. repeat apply conj; try reflexivity.
  destruct s; reflexivity.
Qed.

End CopyFromMoreFacts.

(** [CopyFrom_WholeStatus_copies_all_but_four] on [statusA] and
    [statusB]. *)
Lemma CopyFrom_WholeStatus_copies_all_but_four_witness :
  types.WholeStatus onlyWholeStatus = true /\
  exists r,
    CopyFrom (Some statusA) (Some statusB) onlyWholeStatus = Some r /\
    r <| Actions := Actions statusB |>
      <| HostsFailedCount := HostsFailedCount statusB |>
      <| HostsWithTablesCreated := HostsWithTablesCreated statusB |>
      <| UsedTemplates := UsedTemplates statusB |> = statusB.
Proof.
  split; [reflexivity |].
  exact (CopyFrom_WholeStatus_copies_all_but_four
           statusA statusB onlyWholeStatus eq_refl).
Defined.

(** * More of the status updater *)

Section UpdaterMoreFacts.

Context {CHI TRef World : Type} {client : kube.Client CHI TRef World}.

Local Abbreviation CHK := (kube.ClickHouseKeeperInstallation CHI TRef).
Local Abbreviation state := (kube.state CHI TRef World).

Lemma storeCalls_app (l l' : list (kube.event CHI TRef)) :
  storeCalls (l ++ l') = storeCalls l ++ storeCalls l'.
Proof. apply filter_app. Qed.

(** An attempt that goes through: the fetch, the write and the second
    fetch succeed. It returns no error; the store was called three times,
    fetch, write, fetch; the object written is the fetched one with the
    merged status, under the fetched identity and version token; and the
    caller's object has the version token of the second fetch and is
    otherwise as it was. *)
Theorem doUpdateCRStatus_success
  (chk : CHK) (opts : types.UpdateStatusOptions) (st : state)
  (cur cur2 : CHK) (w1 w2 w3 : World)
  (Hctx : kube.IsContextDone (kube.world st) = false)
  (Hget : kube.kubeClientGet (kube.Namespace chk) (kube.Name chk) (kube.world st)
          = (cur, None, w1))
  (Hupd : kube.kubeClientStatusUpdate (written opts chk cur) w1 = (None, w2))
  (Hget2 : kube.kubeClientGet (kube.Namespace chk) (kube.Name chk) w2
           = (cur2, None, w3)) :
  exists chk' st',
    kube.doUpdateCRStatus chk opts st = (kube.Done (None, chk'), st') /\
    kube.ResourceVersion chk' = kube.ResourceVersion cur2 /\
    chk' <| kube.ResourceVersion := kube.ResourceVersion chk |> = chk /\
    kube.world st' = w3 /\
    storeCalls (kube.trace st') =
      storeCalls (kube.trace st)
      ++ [kube.EvGet (kube.Namespace chk) (kube.Name chk);
          kube.EvUpdate (written opts chk cur);
          kube.EvGet (kube.Namespace chk) (kube.Name chk)] /\
    kube.ResourceVersion (written opts chk cur) = kube.ResourceVersion cur /\
    kube.Namespace (written opts chk cur) = kube.Namespace cur /\
    kube.Name (written opts chk cur) = kube.Name cur.
Proof.
  destruct st as [w tr]. cbn [kube.world] in Hctx, Hget.
  unfold kube.doUpdateCRStatus, kube.Get, kube.assertCHK, kube.bind, kube.ret,
    kube.emit, kube.isContextDone, kube.clientGet, kube.clientStatusUpdate,
    kube.NamespaceName.
  cbn -[kube.EnsureStatus CopyFrom String.eqb].
  rewrite Hctx, Hget. cbn -[kube.EnsureStatus CopyFrom String.eqb].
  match goal with
  | |- context [kube.kubeClientStatusUpdate ?x ?w] =>
      change x with (written opts chk cur)
  end.
  unfold constant. rewrite Hupd.
  cbn -[kube.EnsureStatus CopyFrom String.eqb written]. unfold constant.
  rewrite Hget2.
  cbn -[kube.EnsureStatus CopyFrom String.eqb written]. unfold constant.
  destruct (String.eqb_spec (kube.ResourceVersion chk) (kube.ResourceVersion cur2))
    as [E | E].
  all: do 2 eexists; split; [reflexivity |].
  all: cbn -[kube.EnsureStatus CopyFrom written storeCalls]; unfold constant.
  all: rewrite ?storeCalls_app; cbn -[kube.EnsureStatus CopyFrom written].
  all: rewrite <- ?app_assoc; cbn -[kube.EnsureStatus CopyFrom written].
  all: repeat apply conj; try reflexivity; try assumption.
  all: try (destruct chk; reflexivity).
  all: unfold written, kube.EnsureStatus; destruct (kube.StatusPtr cur);
    reflexivity.
Qed.

(** An attempt whose write is refused returns the error of the write,
    leaves the caller's object alone and does not fetch again: the store
    was called twice, fetch and write. *)
Theorem doUpdateCRStatus_write_failure
  (chk : CHK) (opts : types.UpdateStatusOptions) (st : state)
  (cur : CHK) (w1 w2 : World) (e : error)
  (Hctx : kube.IsContextDone (kube.world st) = false)
  (Hget : kube.kubeClientGet (kube.Namespace chk) (kube.Name chk) (kube.world st)
          = (cur, None, w1))
  (Hupd : kube.kubeClientStatusUpdate (written opts chk cur) w1 = (Some e, w2)) :
  exists st',
    kube.doUpdateCRStatus chk opts st = (kube.Done (Some e, chk), st') /\
    kube.world st' = w2 /\
    storeCalls (kube.trace st') =
      storeCalls (kube.trace st)
      ++ [kube.EvGet (kube.Namespace chk) (kube.Name chk);
          kube.EvUpdate (written opts chk cur)].
Proof.
  destruct st as [w tr]. cbn [kube.world] in Hctx, Hget.
  unfold kube.doUpdateCRStatus, kube.Get, kube.assertCHK, kube.bind, kube.ret,
    kube.emit, kube.isContextDone, kube.clientGet, kube.clientStatusUpdate,
    kube.NamespaceName.
  cbn -[kube.EnsureStatus CopyFrom String.eqb].
  rewrite Hctx, Hget. cbn -[kube.EnsureStatus CopyFrom String.eqb].
  match goal with
  | |- context [kube.kubeClientStatusUpdate ?x ?w] =>
      change x with (written opts chk cur)
  end.
  unfold constant. rewrite Hupd.
  cbn -[kube.EnsureStatus CopyFrom String.eqb written]. unfold constant.
  eexists. split; [reflexivity |].
  cbn -[kube.EnsureStatus CopyFrom written storeCalls].
  rewrite !storeCalls_app. cbn -[kube.EnsureStatus CopyFrom written].
  rewrite <- !app_assoc, app_nil_r. split; reflexivity.
Qed.

(** An attempt whose write succeeds and whose second fetch fails panics:
    the write has been made, and the caller gets neither success nor an
    error. *)
Theorem doUpdateCRStatus_refetch_failure_panics
  (chk : CHK) (opts : types.UpdateStatusOptions) (st : state)
  (cur cm : CHK) (w1 w2 w3 : World) (e : error)
  (Hctx : kube.IsContextDone (kube.world st) = false)
  (Hget : kube.kubeClientGet (kube.Namespace chk) (kube.Name chk) (kube.world st)
          = (cur, None, w1))
  (Hupd : kube.kubeClientStatusUpdate (written opts chk cur) w1 = (None, w2))
  (Hget2 : kube.kubeClientGet (kube.Namespace chk) (kube.Name chk) w2
           = (cm, Some e, w3)) :
  exists st',
    kube.doUpdateCRStatus chk opts st
    = (kube.Panic "interface conversion: interface is nil", st') /\
    kube.StatusUpdate chk opts st
    = (kube.Panic "interface conversion: interface is nil", st') /\
    storeCalls (kube.trace st') =
      storeCalls (kube.trace st)
      ++ [kube.EvGet (kube.Namespace chk) (kube.Name chk);
          kube.EvUpdate (written opts chk cur);
          kube.EvGet (kube.Namespace chk) (kube.Name chk)].
Proof.
  destruct st as [w tr]. cbn [kube.world] in Hctx, Hget.
  assert (Hrun : exists st',
             kube.doUpdateCRStatus chk opts {| kube.world := w; kube.trace := tr |}
             = (kube.Panic "interface conversion: interface is nil", st') /\
             storeCalls (kube.trace st') =
               storeCalls tr
               ++ [kube.EvGet (kube.Namespace chk) (kube.Name chk);
                   kube.EvUpdate (written opts chk cur);
                   kube.EvGet (kube.Namespace chk) (kube.Name chk)]).
  { unfold kube.doUpdateCRStatus, kube.Get, kube.assertCHK, kube.bind, kube.ret,
      kube.emit, kube.isContextDone, kube.clientGet, kube.clientStatusUpdate,
      kube.NamespaceName, kube.panic.
    cbn -[kube.EnsureStatus CopyFrom String.eqb].
    rewrite Hctx, Hget. cbn -[kube.EnsureStatus CopyFrom String.eqb].
    match goal with
    | |- context [kube.kubeClientStatusUpdate ?x ?w] =>
        change x with (written opts chk cur)
    end.
    unfold constant. rewrite Hupd.
    cbn -[kube.EnsureStatus CopyFrom String.eqb written]. unfold constant.
    rewrite Hget2.
    cbn -[kube.EnsureStatus CopyFrom String.eqb written]. unfold constant.
    eexists. split; [reflexivity |].
    cbn -[kube.EnsureStatus CopyFrom written storeCalls].
    rewrite !storeCalls_app. cbn -[kube.EnsureStatus CopyFrom written].
    rewrite <- !app_assoc. reflexivity. }
  destruct Hrun as [st' [Hrun Hcalls]]. exists st'.
  repeat apply conj; [exact Hrun | | exact Hcalls].
  unfold kube.StatusUpdate, kube.StatusUpdateFuel, kube.bind at 1,
    kube.isContextDone.
  cbn [kube.world]. rewrite Hctx.
  cbn [kube.retryLoop]. unfold kube.bind at 1. now rewrite Hrun.
Qed.

(** The tolerance of absence changes nothing: [Get] returns an object
    exactly when it returns no error, so the two places that read the
    switch are never reached. *)
Lemma doUpdateCRStatus_ignores_TolerateAbsence
  (chk : CHK) (copy : types.CopyStatusOptions) (b b' : bool) (st : state) :
  kube.doUpdateCRStatus chk
    {| types.CopyStatusOptions_ := copy; types.TolerateAbsence := b |} st
  = kube.doUpdateCRStatus chk
      {| types.CopyStatusOptions_ := copy; types.TolerateAbsence := b' |} st.
Proof.
  destruct st as [w tr].
  unfold kube.doUpdateCRStatus, kube.Get, kube.assertCHK, kube.bind, kube.ret,
    kube.emit, kube.isContextDone, kube.clientGet, kube.clientStatusUpdate,
    kube.NamespaceName, kube.panic.
  cbn -[kube.EnsureStatus CopyFrom String.eqb].
  destruct (kube.IsContextDone w); [reflexivity |].
  destruct (kube.kubeClientGet (kube.Namespace chk) (kube.Name chk) w)
    as [[cm [e|]] w1]; reflexivity.
Qed.

Lemma retryLoop_ignores_TolerateAbsence
  (copy : types.CopyStatusOptions) (b b' : bool) (fuel : nat) :
  forall (retry : bool) (attempt : nat) (err : option error) (chk : CHK)
         (st : state),
    kube.retryLoop fuel retry attempt err chk
      {| types.CopyStatusOptions_ := copy; types.TolerateAbsence := b |} st
    = kube.retryLoop fuel retry attempt err chk
        {| types.CopyStatusOptions_ := copy; types.TolerateAbsence := b' |} st.
Proof.
  induction fuel as [|fuel IH]; intros retry attempt err chk st;
    [destruct retry; reflexivity |].
  destruct retry; [| reflexivity].
  cbn [kube.retryLoop]. unfold kube.bind.
  rewrite (doUpdateCRStatus_ignores_TolerateAbsence chk copy b b' st).
  destruct (kube.doUpdateCRStatus chk _ st) as [[[[e|] c] | msg] st0];
    try reflexivity.
  destruct (60 <? attempt)%nat; unfold kube.emit, kube.sleep; apply IH.
Qed.

(** [StatusUpdate] does the same whether absence is tolerated or not. *)
Theorem StatusUpdate_ignores_TolerateAbsence
  (chk : CHK) (copy : types.CopyStatusOptions) (b b' : bool) (st : state) :
  kube.StatusUpdate chk
    {| types.CopyStatusOptions_ := copy; types.TolerateAbsence := b |} st
  = kube.StatusUpdate chk
      {| types.CopyStatusOptions_ := copy; types.TolerateAbsence := b' |} st.
Proof.
  unfold kube.StatusUpdate. generalize 61%nat. intro fuel.
  unfold kube.StatusUpdateFuel, kube.bind.
  destruct (kube.isContextDone st) as [[[|] | msg] st0]; try reflexivity.
  apply retryLoop_ignores_TolerateAbsence.
Qed.

(** One attempt never writes before it has fetched, and an attempt that
    returns an error has written. *)
Lemma doUpdateCRStatus_order (chk : CHK) (opts : types.UpdateStatusOptions)
  (st st' : state) (r : kube.result (option error * CHK)) :
  kube.doUpdateCRStatus chk opts st = (r, st') ->
  kube.count kube.isSleep (kube.trace st') = kube.count kube.isSleep (kube.trace st) /\
  (kube.count kube.isUpdate (kube.trace st') + kube.count kube.isGet (kube.trace st)
   <= kube.count kube.isGet (kube.trace st') + kube.count kube.isUpdate (kube.trace st))%nat /\
  (kube.count kube.isUpdate (kube.trace st) <= kube.count kube.isUpdate (kube.trace st'))%nat /\
  forall e c, r = kube.Done (Some e, c) ->
    kube.count kube.isUpdate (kube.trace st')
    = (kube.count kube.isUpdate (kube.trace st) + 1)%nat.
Proof.
  destruct st as [w tr]. intro Hrun. unfold_run Hrun. split_run Hrun.
  all: inversion Hrun; subst; clear Hrun.
  all: cbn [kube.trace kube.world]; unfold constant; rewrite ?count_app.
  all: cbn.
  all: repeat apply conj; try lia.
  all: intros e' c' Hd; inversion Hd; subst; lia.
Qed.

Lemma retryLoop_order (opts : types.UpdateStatusOptions) (fuel : nat) :
  forall (retry : bool) (attempt : nat) (err : option error) (chk : CHK)
         (st st' : state) (r : kube.result (option (option error * CHK))),
    kube.retryLoop fuel retry attempt err chk opts st = (r, st') ->
    (kube.count kube.isUpdate (kube.trace st') + kube.count kube.isGet (kube.trace st)
     <= kube.count kube.isGet (kube.trace st') + kube.count kube.isUpdate (kube.trace st))%nat /\
    (kube.count kube.isSleep (kube.trace st') + kube.count kube.isUpdate (kube.trace st)
     <= kube.count kube.isUpdate (kube.trace st') + kube.count kube.isSleep (kube.trace st))%nat.
Proof.
  induction fuel as [|fuel IH]; intros retry attempt err chk st st' r Hrun.
  - destruct retry; cbn in Hrun; inversion Hrun; subst; lia.
  - destruct retry; [| cbn in Hrun; inversion Hrun; subst; lia].
    cbn [kube.retryLoop] in Hrun. unfold kube.bind at 1 in Hrun.
    destruct (kube.doUpdateCRStatus chk opts st) as [r0 st0] eqn:E0.
    apply doUpdateCRStatus_order in E0. destruct E0 as [O1 [O2 [O3 O4]]].
    destruct r0 as [[[e|] c0] | msg].
    + specialize (O4 e c0 eq_refl).
      destruct (60 <? attempt)%nat;
        unfold kube.bind, kube.emit, kube.sleep in Hrun;
        apply IH in Hrun; cbn -[kube.count] in Hrun; unfold constant in Hrun;
        rewrite !count_app in Hrun; cbn in Hrun; lia.
    + unfold kube.ret in Hrun. inversion Hrun; subst. lia.
    + inversion Hrun; subst. lia.
Qed.

(** [StatusUpdate] never writes to the store without having fetched, and
    never sleeps without a write having been refused: in every run there
    are at least as many fetches as writes and at least as many writes as
    sleeps. *)
Theorem StatusUpdate_fetches_before_it_writes
  (chk : CHK) (opts : types.UpdateStatusOptions) (w : World) :
  (kube.count kube.isUpdate (kube.trace (snd (kube.StatusUpdate chk opts (kube.start w))))
   <= kube.count kube.isGet (kube.trace (snd (kube.StatusUpdate chk opts (kube.start w)))))%nat /\
  (kube.count kube.isSleep (kube.trace (snd (kube.StatusUpdate chk opts (kube.start w))))
   <= kube.count kube.isUpdate (kube.trace (snd (kube.StatusUpdate chk opts (kube.start w)))))%nat.
Proof.
  destruct (kube.StatusUpdate chk opts (kube.start w)) as [r st'] eqn:E.
  cbn [fst snd].
  unfold kube.StatusUpdate in E. revert E. generalize 61%nat. intros fuel E.
  unfold kube.StatusUpdateFuel, kube.bind at 1, kube.isContextDone in E.
  cbn [kube.start kube.world] in E.
  destruct (kube.IsContextDone w).
  - unfold kube.bind, kube.emit, kube.ret in E. cbn in E.
    inversion E; subst; clear E. cbn. lia.
  - apply retryLoop_order in E. cbn in E. lia.
Qed.

End UpdaterMoreFacts.

(** ** More runs against the scripted store *)

(** [doUpdateCRStatus_success] on the store that answers every call. *)
Lemma doUpdateCRStatus_success_witness :
  exists chk' st',
    kube.doUpdateCRStatus chk0 (opts0 false) (kube.start world0)
    = (kube.Done (None, chk'), st') /\
    kube.ResourceVersion chk' = "1'" /\
    chk' <| kube.ResourceVersion := "1" |> = chk0 /\
    storeCalls (kube.trace st') =
      [kube.EvGet "ns" "keeper";
       kube.EvUpdate (written (opts0 false) chk0 chk0);
       kube.EvGet "ns" "keeper"].
Proof.
  pose proof (doUpdateCRStatus_success
                (client := client) chk0 (opts0 false) (kube.start world0) chk0
                (written (opts0 false) chk0 chk0 <| kube.ResourceVersion := "1'" |>)
                world0
                (world0 <| stored :=
                   written (opts0 false) chk0 chk0 <| kube.ResourceVersion := "1'" |> |>)
                (world0 <| stored :=
                   written (opts0 false) chk0 chk0 <| kube.ResourceVersion := "1'" |> |>))
    as H.
  specialize (H eq_refl eq_refl eq_refl eq_refl).
  destruct H as [chk' [st' [H1 [H2 [H3 [_ [H5 _]]]]]]].
  exists chk', st'. repeat apply conj; assumption.
Defined.

(** [doUpdateCRStatus_write_failure] on a store that refuses one write. *)
Lemma doUpdateCRStatus_write_failure_witness :
  exists st',
    kube.doUpdateCRStatus chk0 (opts0 false) (kube.start (conflicts 1))
    = (kube.Done (Some "conflict", chk0), st') /\
    kube.world st' = world0 /\
    storeCalls (kube.trace st') =
      [kube.EvGet "ns" "keeper";
       kube.EvUpdate (written (opts0 false) chk0 chk0)].
Proof.
  pose proof (doUpdateCRStatus_write_failure
                (client := client) chk0 (opts0 false) (kube.start (conflicts 1))
                chk0 (conflicts 1) world0 "conflict") as H.
  exact (H eq_refl eq_refl eq_refl).
Defined.

(** [doUpdateCRStatus_refetch_failure_panics] on a store whose second
    fetch fails. *)
Lemma doUpdateCRStatus_refetch_failure_panics_witness :
  exists st',
    kube.doUpdateCRStatus chk0 (opts0 false) (kube.start refetchFails)
    = (kube.Panic "interface conversion: interface is nil", st') /\
    kube.StatusUpdate chk0 (opts0 false) (kube.start refetchFails)
    = (kube.Panic "interface conversion: interface is nil", st') /\
    storeCalls (kube.trace st') =
      [kube.EvGet "ns" "keeper";
       kube.EvUpdate (written (opts0 false) chk0 chk0);
       kube.EvGet "ns" "keeper"].
Proof.
  pose proof (doUpdateCRStatus_refetch_failure_panics
                (client := client) chk0 (opts0 false) (kube.start refetchFails)
                chk0 emptyCHK
                (refetchFails <| getErrors := [Some "timeout"] |>)
                (refetchFails <| getErrors := [Some "timeout"] |>
                   <| stored :=
                        written (opts0 false) chk0 chk0
                          <| kube.ResourceVersion := "1'" |> |>)
                (refetchFails <| getErrors := [] |>
                   <| stored :=
                        written (opts0 false) chk0 chk0
                          <| kube.ResourceVersion := "1'" |> |>)
                "timeout") as H.
  exact (H eq_refl eq_refl eq_refl eq_refl).
Defined.

(** * The watched installation of package [metrics] *)

Lemma append_append {A} (s : slice A) (x : A) (l : list A) :
  append (append s [x]) l = append s (x :: l).
Proof.
  destruct s as [s|]; cbn; [| reflexivity].
  destruct l; cbn; now rewrite <- ?app_assoc.
Qed.

Lemma append_nil {A} (s : slice A) : append s [] = s.
Proof. destruct s as [s|]; cbn; [now rewrite app_nil_r | reflexivity]. Qed.

Lemma elems_append {A} (s : slice A) (l : list A) :
  elems (append s l) = elems s ++ l.
Proof. destruct s as [s|]; destruct l; reflexivity. Qed.

(** Reading a cluster: the hosts come out in the order walked, one watched
    host for each. *)
Lemma clusterReadFrom_zero (c : metrics.ICluster.t) :
  metrics.clusterReadFrom (Some metrics.WatchedCluster.zero) c
  = Some (metrics.watchedCluster c).
Proof.
  unfold metrics.clusterReadFrom, metrics.WalkHostsOf, metrics.watchedCluster.
  f_equal.
  set (start := metrics.WatchedCluster.zero
                  <| metrics.WatchedCluster.Name := metrics.ICluster.GetName c |>).
  assert (H : forall hs (cl : metrics.WatchedCluster.t),
             fold_left
               (fun s h =>
                  s <| metrics.WatchedCluster.Hosts :=
                         append (metrics.WatchedCluster.Hosts s)
                                [metrics.hostReadFrom (Some metrics.WatchedHost.zero) h] |>)
               hs cl
             = cl <| metrics.WatchedCluster.Hosts :=
                       append (metrics.WatchedCluster.Hosts cl)
                              (map (fun h => Some (metrics.watchedHost h)) hs) |>).
  { induction hs as [|h hs IH]; intro cl.
    - cbn [fold_left map]. rewrite append_nil. destruct cl; reflexivity.
    - cbn [fold_left map]. rewrite IH. destruct cl as [n hosts]. cbn.
      unfold constant. now rewrite append_append. }
  rewrite H. reflexivity.
Qed.

Lemma readFrom_clusters (cs : list metrics.ICluster.t) :
  forall chi : metrics.WatchedCHI.t,
    fold_left
      (fun s c =>
         s <| metrics.WatchedCHI.Clusters :=
                append (metrics.WatchedCHI.Clusters s)
                       [metrics.clusterReadFrom (Some metrics.WatchedCluster.zero) c] |>)
      cs chi
    = chi <| metrics.WatchedCHI.Clusters :=
               append (metrics.WatchedCHI.Clusters chi)
                      (map (fun c => Some (metrics.watchedCluster c)) cs) |>.
Proof.
  induction cs as [|c cs IH]; intro chi.
  - cbn [fold_left map]. rewrite append_nil. destruct chi; reflexivity.
  - cbn [fold_left map]. rewrite IH, clusterReadFrom_zero.
    destruct chi. cbn. unfold constant. now rewrite append_append.
Qed.

(** [NewWatchedCHI] copies the namespace, the name, the labels and the
    annotations of the resource and holds one watched cluster for each
    cluster walked, in the order walked, each with one watched host for each
    of its hosts, in order; no cluster at all leaves the list nil. *)
Theorem NewWatchedCHI_mirrors_the_resource (cr : metrics.ICustomResource.t) :
  exists chi,
    metrics.NewWatchedCHI cr = Some chi /\
    metrics.WatchedCHI.Namespace chi = metrics.ICustomResource.GetNamespace cr /\
    metrics.WatchedCHI.Name chi = metrics.ICustomResource.GetName cr /\
    metrics.WatchedCHI.Labels chi = metrics.ICustomResource.GetLabels cr /\
    metrics.WatchedCHI.Annotations chi = metrics.ICustomResource.GetAnnotations cr /\
    elems (metrics.WatchedCHI.Clusters chi)
    = map (fun c => Some (metrics.watchedCluster c))
          (metrics.ICustomResource.clusters cr) /\
    (forall c, elems (metrics.WatchedCluster.Hosts (metrics.watchedCluster c))
               = map (fun h => Some (metrics.watchedHost h)) (metrics.ICluster.hosts c)) /\
    (metrics.WatchedCHI.Clusters chi = None <->
     metrics.ICustomResource.clusters cr = []).
Proof.
  eexists. split.
  - unfold metrics.NewWatchedCHI, metrics.readFrom, metrics.WalkClusters.
    rewrite readFrom_clusters. reflexivity.
  - repeat apply conj; try reflexivity.
    + cbn -[append]. unfold constant. now rewrite elems_append.
    + intro c. unfold metrics.watchedCluster.
      cbn -[append]. now rewrite elems_append.
    + cbn -[append]. unfold constant.
      destruct (metrics.ICustomResource.clusters cr); cbn;
        intro H; try reflexivity; discriminate H.
    + cbn -[append]. unfold constant.
      destruct (metrics.ICustomResource.clusters cr); cbn;
        intro H; try reflexivity; discriminate H.
Qed.

Lemma NewWatchedCHI_eq (cr : metrics.ICustomResource.t) :
  metrics.NewWatchedCHI cr =
    Some {| metrics.WatchedCHI.Namespace := metrics.ICustomResource.GetNamespace cr;
            metrics.WatchedCHI.Name := metrics.ICustomResource.GetName cr;
            metrics.WatchedCHI.Labels := metrics.ICustomResource.GetLabels cr;
            metrics.WatchedCHI.Annotations := metrics.ICustomResource.GetAnnotations cr;
            metrics.WatchedCHI.Clusters :=
              append None (map (fun c => Some (metrics.watchedCluster c))
                               (metrics.ICustomResource.clusters cr)) |}.
Proof.
  unfold metrics.NewWatchedCHI, metrics.readFrom, metrics.WalkClusters.
  rewrite readFrom_clusters. reflexivity.
Qed.

Lemma length_0_empty (s : string) :
  (String.length s =? 0)%nat = true <-> s = "".
Proof.
  destruct s; cbn; split; intro H; try reflexivity; discriminate H.
Qed.

(** The watched installation of a resource is not valid exactly when the
    resource has an empty namespace, an empty name and no cluster. *)
Theorem NewWatchedCHI_IsValid (cr : metrics.ICustomResource.t) :
  exists b,
    metrics.IsValid (metrics.NewWatchedCHI cr) = metrics.Returns b /\
    (b = false <->
     metrics.ICustomResource.GetNamespace cr = "" /\
     metrics.ICustomResource.GetName cr = "" /\
     metrics.ICustomResource.clusters cr = []).
Proof.
  rewrite NewWatchedCHI_eq. eexists. split; [reflexivity |].
  cbn -[append Nat.eqb String.length].
  rewrite Bool.negb_false_iff, !Bool.andb_true_iff, !length_0_empty.
  unfold len. rewrite elems_append. cbn [elems app].
  rewrite length_map.
  destruct (metrics.ICustomResource.clusters cr); cbn; intuition congruence.
Qed.

Lemma noColon_key (a b n m : string) :
  noColon a = true -> noColon b = true ->
  (a ++ ":" ++ n)%string = (b ++ ":" ++ m)%string -> a = b /\ n = m.
Proof.
  revert b. induction a as [|c a IH]; intros [|d b] Ha Hb E.
  - cbn in E. inversion E. now split.
  - exfalso. cbn in E. inversion E; subst d.
    cbn in Hb. discriminate Hb.
  - exfalso. cbn in E. inversion E; subst c.
    cbn in Ha. discriminate Ha.
  - cbn in E. inversion E; subst d.
    cbn [noColon] in Ha, Hb.
    apply Bool.andb_true_iff in Ha. apply Bool.andb_true_iff in Hb.
    destruct (IH b (proj2 Ha) (proj2 Hb) H1) as [-> ->]. now split.
Qed.

(** [IndexKey] tells installations apart when namespaces have no colon:
    two watched installations with the same key then have the same
    namespace and the same name. *)
Theorem IndexKey_injective_without_colon (a b : metrics.WatchedCHI.t)
  (Ha : noColon (metrics.WatchedCHI.Namespace a) = true)
  (Hb : noColon (metrics.WatchedCHI.Namespace b) = true)
  (Hkey : metrics.IndexKey (Some a) = metrics.IndexKey (Some b)) :
  metrics.WatchedCHI.Namespace a = metrics.WatchedCHI.Namespace b /\
  metrics.WatchedCHI.Name a = metrics.WatchedCHI.Name b.
Proof.
  cbn in Hkey. inversion Hkey as [E].
  exact (noColon_key _ _ _ _ Ha Hb E).
Qed.

Lemma walkClusters_watched {S} (chi : metrics.WatchedCHI.t)
  (f : metrics.WatchedCHI.t -> metrics.WatchedCluster.t ->
       option metrics.WatchedHost.t -> S -> S)
  (cs : list metrics.ICluster.t) :
  forall s,
    metrics.walkClusters chi
      (map (fun c => Some (metrics.watchedCluster c)) cs) f s
    = (metrics.Returns tt,
       fold_left
         (fun s ch =>
            f chi (metrics.watchedCluster (fst ch))
              (Some (metrics.watchedHost (snd ch))) s)
         (flat_map (fun c => map (pair c) (metrics.ICluster.hosts c)) cs) s).
Proof.
  induction cs as [|c cs IH]; intro s; [reflexivity |].
  cbn [map metrics.walkClusters flat_map]. rewrite IH, fold_left_app.
  f_equal. f_equal.
  unfold metrics.walkClusterHosts.
  replace (elems (metrics.WatchedCluster.Hosts (metrics.watchedCluster c)))
    with (map (fun h => Some (metrics.watchedHost h)) (metrics.ICluster.hosts c))
    by (unfold metrics.watchedCluster; cbn -[append];
        now rewrite elems_append).
  generalize (metrics.ICluster.hosts c) as hs. intro hs. revert s.
  induction hs as [|h hs IHh]; intro s; [reflexivity |].
  cbn [map fold_left fst snd]. apply IHh.
Qed.

(** [WalkHosts] on the watched installation of a resource does not panic
    and calls [f] once for every host that walking the resource yields, in
    that order, with the watched cluster and the watched host. *)
Theorem WalkHosts_visits_every_host (cr : metrics.ICustomResource.t) :
  exists chi,
    metrics.NewWatchedCHI cr = Some chi /\
    forall (S : Type)
           (f : metrics.WatchedCHI.t -> metrics.WatchedCluster.t ->
                option metrics.WatchedHost.t -> S -> S) (s : S),
      metrics.WalkHosts (Some chi) f s
      = (metrics.Returns tt,
         fold_left
           (fun s ch =>
              f chi (metrics.watchedCluster (fst ch))
                (Some (metrics.watchedHost (snd ch))) s)
           (visits cr) s).
Proof.
  rewrite NewWatchedCHI_eq. eexists. split; [reflexivity |].
  intros S f s. unfold metrics.WalkHosts.
  cbn -[append metrics.walkClusters]. rewrite elems_append. cbn [elems app].
  apply walkClusters_watched.
Qed.

(** The receivers that are nil: the getters, [readFrom] and [WalkHosts] do
    nothing and return the zero value, [IsValid] and [IndexKey] panic. And
    [WalkHosts] panics at a nil cluster, after the calls made for the
    clusters before it. *)
Theorem WatchedCHI_nil_receivers :
  metrics.GetName None = "" /\ metrics.GetNamespace None = "" /\
  metrics.GetLabels None = None /\ metrics.GetAnnotations None = None /\
  (forall cr, metrics.readFrom None cr = None) /\
  (forall S f (s : S), metrics.WalkHosts None f s = (metrics.Returns tt, s)) /\
  metrics.IsValid None = metrics.Panics /\
  metrics.IndexKey None = metrics.Panics /\
  (forall S f (s : S) chi c rest,
     metrics.WalkHosts
       (Some (chi <| metrics.WatchedCHI.Clusters := Some (Some c :: None :: rest) |>))
       f s
     = (metrics.Panics,
        metrics.walkClusterHosts
          (chi <| metrics.WatchedCHI.Clusters := Some (Some c :: None :: rest) |>)
          c f s)).
Proof. repeat split. Qed.

(** * The restart annotation of [list.go] *)

(** [markPodRestartedNow] leaves annotations that are not nil, in which
    the restart key reads as the time given and every other key reads as
    before; this holds from nil annotations too. *)
Theorem markPodRestartedNow_sets_one_annotation
  (now : string) (sts : typesList.StatefulSet) :
  typesList.SpecTemplateAnnotations (typesList.markPodRestartedNow now sts)
  <> None /\
  typesList.Get
    (typesList.SpecTemplateAnnotations (typesList.markPodRestartedNow now sts))
    restartedAt = now /\
  forall k, k <> restartedAt ->
    typesList.Get
      (typesList.SpecTemplateAnnotations (typesList.markPodRestartedNow now sts)) k
    = typesList.Get (typesList.SpecTemplateAnnotations sts) k.
Proof.
  destruct sts as [[m|]]; cbn; unfold constant, restartedAt.
  all: repeat apply conj; try discriminate.
  - now rewrite stdpp.fin_maps.lookup_insert_eq.
  - intros k Hk. rewrite stdpp.fin_maps.lookup_insert_ne by congruence.
    reflexivity.
  - now rewrite stdpp.fin_maps.lookup_insert_eq.
  - intros k Hk. rewrite stdpp.fin_maps.lookup_insert_ne by congruence.
    now rewrite stdpp.fin_maps.lookup_empty.
Qed.

(** * The statements with hypotheses, on examples *)

(** [histories_stay_capped] on [statusA]. *)
Lemma histories_stay_capped_witness :
  capped statusA /\
  exists s',
    mutateAll "0.24" "sha" "today" (Some statusA)
      [mPushAction "a4"; mReconcileStart 1%Z; mSetAndPushError "e3";
       mHostFailed; mReconcileAbort]
    = Some s' /\
    capped s'.
Proof.
  assert (H : capped statusA)
    by (unfold capped, len, maxActions, maxErrors, maxTaskIDs; cbn;
        repeat split; lia).
  split; [exact H |].
  exact (histories_stay_capped "0.24" "sha" "today" statusA _ H).
Defined.

(** [host_counters_count_their_calls] on two added hosts and a failed
    one. *)
Lemma host_counters_count_their_calls_witness :
  exists s',
    mutateAll "0.24" "sha" "today" (Some statusFailed)
      [mHostAdded; mHostFailed; mHostAdded] = Some s' /\
    HostsAddedCount s' = 2%Z /\ HostsFailedCount s' = 3%Z /\
    HostsUpdatedCount s' = 0%Z.
Proof.
  assert (R : forall x : int, (x = 0 \/ x = 2)%Z -> roomFor 3 x)
    by (unfold roomFor; intros x [-> | ->]; lia).
  destruct (host_counters_count_their_calls "0.24" "sha" "today"
              [mHostAdded; mHostFailed; mHostAdded] statusFailed eq_refl
              (R _ (or_introl eq_refl)) (R _ (or_introl eq_refl))
              (R _ (or_introl eq_refl)) (R _ (or_introl eq_refl))
              (R _ (or_intror eq_refl)) (R _ (or_introl eq_refl)))
    as [s' [E [_ [Hu [Ha [_ [Hf _]]]]]]].
  exists s'. repeat apply conj; assumption.
Defined.

(** [IndexKey_injective_without_colon] on two installations of one
    namespace and name that differ in their clusters. *)
Lemma IndexKey_injective_without_colon_witness :
  noColon "ns" = true /\
  metrics.IndexKey
    (Some (metrics.WatchedCHI.zero <| metrics.WatchedCHI.Namespace := "ns" |>
                                   <| metrics.WatchedCHI.Name := "keeper" |>))
  = metrics.IndexKey (metrics.NewWatchedCHI metrics.cr2) /\
  "ns" = "ns" /\ "keeper" = "keeper".
Proof.
  split; [reflexivity |]. split; [reflexivity |].
  exact (IndexKey_injective_without_colon
           (metrics.WatchedCHI.zero <| metrics.WatchedCHI.Namespace := "ns" |>
                                    <| metrics.WatchedCHI.Name := "keeper" |>)
           {| metrics.WatchedCHI.Namespace := "ns";
              metrics.WatchedCHI.Name := "keeper";
              metrics.WatchedCHI.Labels := None;
              metrics.WatchedCHI.Annotations := None;
              metrics.WatchedCHI.Clusters :=
                Some [Some (metrics.watchedCluster
                              {| metrics.ICluster.GetName := "c0";
                                 metrics.ICluster.hosts := [metrics.host1] |});
                      Some (metrics.watchedCluster
                              {| metrics.ICluster.GetName := "c1";
                                 metrics.ICluster.hosts := [] |})] |}
           eq_refl eq_refl eq_refl).
Defined.
